(** * Code Assist client: endpoint resolver, call dispatcher, stream decoder

    A shallow embedding of [packages/core/src/code_assist/server.ts] and
    [packages/core/src/core/session-logger.ts], with the properties the
    specification states about them.

    Conventions.
    - A JavaScript string is a [string] holding its UTF-8 bytes.  The only
      index arithmetic the code performs ([slice(6)]) happens behind the
      six ASCII characters of ["data: "], where bytes and UTF-16 code units
      coincide.
    - A JavaScript value is a [JsValue] tree.  Objects carry the name of
      their constructor and a finite map of own properties.
    - [await p] on a rejected promise throws; both are a [Threw] completion.
    - Built-ins and collaborators that are not part of the two files
      ([JSON.parse], [JSON.stringify], [fs], the converters) are fields of
      the records [Runtime] and [Converters]; every theorem holds for all
      of them. *)

From stdpp Require Import gmap strings list fin_maps.
From Stdlib Require Import ZArith Ascii String DecimalString.

#[local] Set Warnings "-register-all,-clear-no-such-hyp".
#[local] Open Scope string_scope.
#[local] Open Scope list_scope.

(** ** JavaScript values and completions *)

Inductive JsValue :=
| JUndefined
| JNull
| JBool (b : bool)
| JNum (z : Z)
| JStr (s : string)
| JArr (xs : list JsValue)
| JObj (cls : string) (props : gmap string JsValue)
| JStream (lines : list string) (fin : option JsValue)
| JSignal (id : positive).
(* [JSignal id]: the AbortSignal object at address [id]; whether it has
   fired is part of the world state.
   [JStream lines fin]: a readable stream seen through
   [readline.createInterface]: the lines its async iterator delivers, then
   a normal end ([None]) or a failure ([Some e]). *)

Inductive Completion (A : Type) :=
| Returned (a : A)
| Threw (e : JsValue).
Arguments Returned {A} a.
Arguments Threw {A} e.

#[export] Instance Completion_ret : MRet Completion := fun _ a => Returned a.
#[export] Instance Completion_bind : MBind Completion := fun _ _ f m =>
  match m with
  | Returned a => f a
  | Threw e => Threw e
  end.

Definition obj (props : gmap string JsValue) : JsValue := JObj "Object" props.

(* [new Error(msg)] and friends: the message is an own property. *)
Definition new_Error (cls msg : string) : JsValue :=
  JObj cls {[ "message" := JStr msg ]}.

(* [Error()] without an argument creates no own [message] property. *)
Definition Error_noarg : JsValue := JObj "Error" ∅.

Definition is_nullish (v : JsValue) : bool :=
  match v with
  | JUndefined | JNull => true
  | _ => false
  end.

Definition truthy (v : JsValue) : bool :=
  match v with
  | JUndefined | JNull => false
  | JBool b => b
  | JNum z => negb (z =? 0)%Z
  | JStr s => negb (s =? "")
  | JArr _ | JObj _ _ | JStream _ _ | JSignal _ => true
  end.

Definition typeof (v : JsValue) : string :=
  match v with
  | JUndefined => "undefined"
  | JNull => "object"
  | JBool _ => "boolean"
  | JNum _ => "number"
  | JStr _ => "string"
  | JArr _ | JObj _ _ | JStream _ _ | JSignal _ => "object"
  end.

Definition nullish_name (v : JsValue) : string :=
  match v with
  | JNull => "null"
  | _ => "undefined"
  end.

(* The TypeError V8 raises for [v.k] when [v] is null or undefined. *)
Definition TypeError_read (v : JsValue) (k : string) : JsValue :=
  new_Error "TypeError"
    ("Cannot read properties of " +:+ nullish_name v +:+
     " (reading '" +:+ k +:+ "')").

(* [v.k] for the property names the code reads (response, data, error,
   details, reason): none of them exists on a built-in prototype, so the
   read finds an own property of an object or nothing. *)
Definition get_prop (v : JsValue) (k : string) : Completion JsValue :=
  match v with
  | JUndefined | JNull => Threw (TypeError_read v k)
  | JObj _ props => Returned (default JUndefined (props !! k))
  | _ => Returned JUndefined
  end.

(* [v?.k] *)
Definition get_prop_opt (v : JsValue) (k : string) : JsValue :=
  match v with
  | JObj _ props => default JUndefined (props !! k)
  | _ => JUndefined
  end.

(* [k in v]; a TypeError when [v] is a primitive. *)
Definition js_in (k : string) (v : JsValue) : Completion bool :=
  match v with
  | JObj _ props => Returned (bool_decide (is_Some (props !! k)))
  | JArr _ | JStream _ _ | JSignal _ => Returned false
  | _ => Threw (new_Error "TypeError"
                  ("Cannot use 'in' operator to search for '" +:+ k +:+ "'"))
  end.

(* [v === 'lit'] *)
Definition strict_eq_str (v : JsValue) (lit : string) : bool :=
  match v with
  | JStr s => s =? lit
  | _ => false
  end.

(* [Array.prototype.some] over a callback that may throw. *)
Fixpoint array_some (cb : JsValue -> Completion bool) (xs : list JsValue)
  : Completion bool :=
  match xs with
  | [] => Returned false
  | x :: rest =>
      match cb x with
      | Threw e => Threw e
      | Returned true => Returned true
      | Returned false => array_some cb rest
      end
  end.

(** ** Strings *)

(* [s.startsWith(p)] *)
Definition startsWith (p s : string) : bool := String.prefix p s.

(* [s.slice(n)] for [n] within the ASCII part of [s]. *)
Fixpoint slice_from (n : nat) (s : string) : string :=
  match n, s with
  | O, _ => s
  | S _, EmptyString => EmptyString
  | S n', String _ rest => slice_from n' rest
  end.

(* The line feed character, written '\n' in the source. *)
Definition NL : string := String (ascii_of_nat 10) EmptyString.

(* [parts.join(sep)] *)
Fixpoint join (sep : string) (parts : list string) : string :=
  match parts with
  | [] => ""
  | [p] => p
  | p :: rest => p +:+ sep +:+ join sep rest
  end.

(* The WhiteSpace and LineTerminator code points that [trim] removes, as
   UTF-8 byte sequences: TAB LF VT FF CR SP, U+00A0, U+1680, U+2000 to
   U+200A, U+2028, U+2029, U+202F, U+205F, U+3000, U+FEFF. *)
Definition ws_tokens : list (list N) :=
  [ [9]; [10]; [11]; [12]; [13]; [32];
    [194; 160]; [225; 154; 128];
    [226; 128; 128]; [226; 128; 129]; [226; 128; 130]; [226; 128; 131];
    [226; 128; 132]; [226; 128; 133]; [226; 128; 134]; [226; 128; 135];
    [226; 128; 136]; [226; 128; 137]; [226; 128; 138];
    [226; 128; 168]; [226; 128; 169]; [226; 128; 175];
    [226; 129; 159]; [227; 128; 128]; [239; 187; 191] ]%N.

Fixpoint strip_token (tok : list N) (bs : list ascii) : option (list ascii) :=
  match tok, bs with
  | [], _ => Some bs
  | t :: tok', b :: bs' =>
      if (N_of_ascii b =? t)%N then strip_token tok' bs' else None
  | _ :: _, [] => None
  end.

Fixpoint strip_any (toks : list (list N)) (bs : list ascii)
  : option (list ascii) :=
  match toks with
  | [] => None
  | tok :: toks' =>
      match strip_token tok bs with
      | Some r => Some r
      | None => strip_any toks' bs
      end
  end.

Fixpoint strip_leading (toks : list (list N)) (fuel : nat) (bs : list ascii)
  : list ascii :=
  match fuel with
  | O => bs
  | S fuel' =>
      match strip_any toks bs with
      | Some r => strip_leading toks fuel' r
      | None => bs
      end
  end.

Definition trimStart_bytes (bs : list ascii) : list ascii :=
  strip_leading ws_tokens (List.length bs) bs.

Definition trimEnd_bytes (bs : list ascii) : list ascii :=
  List.rev (strip_leading (map (@List.rev N) ws_tokens) (List.length bs) (List.rev bs)).

(* [s.trim()] *)
Definition trim (s : string) : string :=
  string_of_list_ascii
    (trimEnd_bytes (trimStart_bytes (list_ascii_of_string s))).

(** ** Endpoint resolver *)

Definition CODE_ASSIST_ENDPOINT : string := "https://cloudcode-pa.googleapis.com".
Definition CODE_ASSIST_API_VERSION : string := "v1internal".

(* [process.env] is a finite map from names to strings; it is an argument,
   so every call reads the environment of that moment. *)
Definition getMethodUrl (env : gmap string string) (method : string) : string :=
  let endpoint := default CODE_ASSIST_ENDPOINT (env !! "CODE_ASSIST_ENDPOINT") in
  endpoint +:+ "/" +:+ CODE_ASSIST_API_VERSION +:+ ":" +:+ method.

(** ** Error classifier *)

(* [(detail) => detail.reason === 'SECURITY_POLICY_VIOLATED'] *)
Definition detail_matches (detail : JsValue) : Completion bool :=
  reason ← get_prop detail "reason";
  mret (strict_eq_str reason "SECURITY_POLICY_VIOLATED").

Definition isVpcScAffectedUser (error : JsValue) : Completion bool :=
  if truthy error && (typeof error =? "object") then
    has_response ← js_in "response" error;
    if has_response : bool then
      gaxios_response ← get_prop error "response";
      let response := get_prop_opt gaxios_response "data" in
      let details := get_prop_opt (get_prop_opt response "error") "details" in
      match details with
      | JArr entries => array_some detail_matches entries
      | _ => Returned false
      end
    else Returned false
  else Returned false.


(** ** The world outside the two files *)

Inductive LogObjectType :=
| MODEL_REQUEST
| MODEL_RESPONSE
| TOOL_CALL_SCHEDULE
| TOOL_CALL_RESULT.

Definition LogObjectType_value (t : LogObjectType) : string :=
  match t with
  | MODEL_REQUEST => "model_request"
  | MODEL_RESPONSE => "model_response"
  | TOOL_CALL_SCHEDULE => "tool_call_schedule"
  | TOOL_CALL_RESULT => "tool_call_result"
  end.

Definition LogObjectType_eqb (a b : LogObjectType) : bool :=
  match a, b with
  | MODEL_REQUEST, MODEL_REQUEST
  | MODEL_RESPONSE, MODEL_RESPONSE
  | TOOL_CALL_SCHEDULE, TOOL_CALL_SCHEDULE
  | TOOL_CALL_RESULT, TOOL_CALL_RESULT => true
  | _, _ => false
  end.

(* Mutable state the code reads or writes besides its own variables. *)
Record World := mkWorld {
  env : gmap string string;          (* process.env *)
  files : gmap string string;        (* file contents by path *)
  console : list (string * JsValue); (* console.error / console.debug output *)
  clock : string;                    (* new Date().toISOString() *)
  aborted : gset positive;           (* the AbortSignals that have fired *)
  log_calls : list (LogObjectType * JsValue)
                                     (* every SessionLogger.log invocation,
                                        oldest first *)
}.

Definition set_files (fs : gmap string string) (w : World) : World :=
  mkWorld (env w) fs (console w) (clock w) (aborted w) (log_calls w).

Definition console_print (msg : string) (v : JsValue) (w : World) : World :=
  mkWorld (env w) (files w) (console w ++ [(msg, v)]) (clock w) (aborted w)
          (log_calls w).

Definition record_log_call (t : LogObjectType) (d : JsValue) (w : World)
  : World :=
  mkWorld (env w) (files w) (console w) (clock w) (aborted w)
          (log_calls w ++ [(t, d)]).

(* [controller.abort()] for the signal at address [id]. *)
Definition fire (id : positive) (w : World) : World :=
  mkWorld (env w) (files w) (console w) (clock w) ({[ id ]} ∪ aborted w)
          (log_calls w).

(* Built-ins of the platform.  [JSON_stringify_replaced v] stands for
   [JSON.stringify(v, getCircularReplacer())]: on a [JsValue] tree, which
   has neither sharing nor BigInt leaves, the replacer returns every value
   as it is. *)
Record Runtime := mkRuntime {
  JSON_parse : string -> Completion JsValue;
  JSON_stringify : JsValue -> Completion string;
  JSON_stringify_replaced : JsValue -> Completion string;
  fs_appendFile : gmap string string -> string -> string
                  -> Completion (gmap string string);
  fs_mkdir : gmap string string -> string -> Completion (gmap string string);
  path_join : string -> string -> string
}.

(* State and exceptions: a computation runs in a world and returns or
   throws. *)
Definition M (A : Type) : Type := World -> Completion A * World.

#[export] Instance M_ret : MRet M := fun _ a w => (Returned a, w).
#[export] Instance M_bind : MBind M := fun _ _ f m w =>
  match m w with
  | (Returned a, w') => f a w'
  | (Threw e, w') => (Threw e, w')
  end.

Definition lift {A} (c : Completion A) : M A := fun w => (c, w).
Definition get_world : M World := fun w => (Returned w, w).
Definition modify (f : World -> World) : M unit := fun w => (Returned tt, f w).

(* [try { body } catch (e) { handler(e) }] *)
Definition try_catch {A} (body : M A) (handler : JsValue -> M A) : M A :=
  fun w =>
    match body w with
    | (Returned a, w') => (Returned a, w')
    | (Threw e, w') => handler e w'
    end.

(** ** Session logger (session-logger.ts) *)

Record Storage := mkStorage { getProjectTempDir : string }.

Record SessionLogger := mkSessionLogger {
  logFilePath : option string;
  sessionId_ : string;
  initialized : bool;
  storage : Storage
}.

(* Truthiness of a [string | undefined]. *)
Definition path_truthy (p : option string) : bool :=
  match p with
  | Some s => negb (s =? "")
  | None => false
  end.

Definition SessionLogger_initialize (rt : Runtime) (lg : SessionLogger)
  : M SessionLogger :=
  if initialized lg then mret lg
  else
    let logsDir := path_join rt (getProjectTempDir (storage lg)) "logs" in
    let path := path_join rt logsDir (sessionId_ lg +:+ ".log.jsonl") in
    try_catch
      (w ← get_world;
       fs ← lift (fs_mkdir rt (files w) logsDir);
       modify (set_files fs);;
       mret (mkSessionLogger (Some path) (sessionId_ lg) true (storage lg)))
      (fun err =>
         modify (console_print "Failed to initialize session logger:" err);;
         mret (mkSessionLogger (Some path) (sessionId_ lg) false (storage lg))).

(* [log] is an [async] method: the value it hands back is the completion
   of its promise; it cannot throw into its caller. *)
Definition SessionLogger_log (rt : Runtime) (lg : SessionLogger)
    (type : LogObjectType) (data : JsValue) : M unit :=
  modify (record_log_call type data);;
  if negb (initialized lg) || negb (path_truthy (logFilePath lg)) then
    (* Fail silently if not initialized. *)
    mret tt
  else
    w ← get_world;
    let newEntry := obj {[ "timestamp" := JStr (clock w);
                           "type" := JStr (LogObjectType_value type);
                           "data" := data ]} in
    try_catch
      (text ← lift (JSON_stringify_replaced rt newEntry);
       fs ← lift (fs_appendFile rt (files w) (default "" (logFilePath lg))
                    (text +:+ NL));
       modify (set_files fs))
      (fun error =>
         modify (console_print "Error writing to session log file:" error)).

(** ** Call dispatcher (server.ts) *)

Record HttpOptions := mkHttpOptions { headers : option (gmap string string) }.

Record RequestOptions := mkRequestOptions {
  opt_url : string;
  opt_method : string;
  opt_params : gmap string string;
  opt_headers : gmap string string;
  opt_responseType : string;
  opt_body : option string;
  opt_signal : JsValue
}.

Record Response := mkResponse { data : JsValue }.

(* The authenticated transport: it answers a request or fails. *)
Record OAuth2Client := mkClient {
  request : RequestOptions -> Completion Response
}.

(* The converters of converter.ts and the constant of types.ts that
   server.ts imports. *)
Record Converters := mkConverters {
  toGenerateContentRequest :
    JsValue -> string -> option string -> option string -> JsValue;
  fromGenerateContentResponse : JsValue -> JsValue;
  toCountTokenRequest : JsValue -> JsValue;
  fromCountTokenResponse : JsValue -> JsValue;
  UserTierId_STANDARD : JsValue
}.

Record CodeAssistServer := mkServer {
  client : OAuth2Client;
  projectId : option string;
  httpOptions : HttpOptions;
  sessionId : option string;
  userTier : option JsValue;
  sessionLogger : option SessionLogger
}.

(* [this.sessionLogger?.log(type, data)], not awaited: the promise is
   dropped, only the effects of the call remain. *)
Definition sessionLogger_log_opt (rt : Runtime) (self : CodeAssistServer)
    (type : LogObjectType) (data : JsValue) : M unit :=
  match sessionLogger self with
  | Some lg => fun w => (Returned tt, snd (SessionLogger_log rt lg type data w))
  | None => mret tt
  end.

(* [{ 'Content-Type': 'application/json', ...this.httpOptions.headers }] *)
Definition request_headers (self : CodeAssistServer) : gmap string string :=
  default ∅ (headers (httpOptions self))
  ∪ {[ "Content-Type" := "application/json" ]}.

Definition requestPost (rt : Runtime) (self : CodeAssistServer)
    (method : string) (req : JsValue) (signal : JsValue) : M JsValue :=
  w ← get_world;
  let url := getMethodUrl (env w) method in
  sessionLogger_log_opt rt self MODEL_REQUEST
    (obj {[ "url" := JStr url; "method" := JStr "POST"; "body" := req ]});;
  body ← lift (JSON_stringify rt req);
  res ← lift (request (client self)
                (mkRequestOptions url "POST" ∅ (request_headers self)
                   "json" (Some body) signal));
  sessionLogger_log_opt rt self MODEL_RESPONSE
    (obj {[ "url" := JStr url; "method" := JStr "POST";
            "response" := data res ]});;
  mret (data res).

Definition requestGet (rt : Runtime) (self : CodeAssistServer)
    (method : string) (signal : JsValue) : M JsValue :=
  w ← get_world;
  let url := getMethodUrl (env w) method in
  sessionLogger_log_opt rt self MODEL_REQUEST
    (obj {[ "url" := JStr url; "method" := JStr "GET" ]});;
  res ← lift (request (client self)
                (mkRequestOptions url "GET" ∅ (request_headers self)
                   "json" None signal));
  sessionLogger_log_opt rt self MODEL_RESPONSE
    (obj {[ "url" := JStr url; "method" := JStr "GET";
            "response" := data res ]});;
  mret (data res).

(** *** Stream decoder *)

(* What one [next()] on the returned async generator settles to. *)
Inductive IterResult :=
| Yielded (v : JsValue)
| Done
| Thrown (e : JsValue).

(* Where the generator body is parked between two [next()] calls. *)
Inductive GenPhase :=
| GenStart
| GenSuspended (bufferedLines : list string) (rest : list string)
               (fin : option JsValue)
| GenDone.

Record Generator := mkGenerator {
  gen_self : CodeAssistServer;
  gen_url : string;
  gen_res : Response;
  gen_phase : GenPhase
}.

Definition parked (g : Generator) (ph : GenPhase) : Generator :=
  mkGenerator (gen_self g) (gen_url g) (gen_res g) ph.

(* The [for await (const line of rl)] loop, run until the body yields,
   returns or throws.  [lines] and [fin] are what [rl] still has to
   deliver. *)
Fixpoint decode_loop (rt : Runtime) (self : CodeAssistServer) (url : string)
    (bufferedLines : list string) (lines : list string) (fin : option JsValue)
    (w : World) : IterResult * GenPhase * World :=
  match lines with
  | [] =>
      match fin with
      | None => (Done, GenDone, w)
      | Some e => (Thrown e, GenDone, w)
      end
  | line :: rest =>
      if line =? "" then
        match bufferedLines with
        | [] => decode_loop rt self url bufferedLines rest fin w
        | _ :: _ =>
            match JSON_parse rt (join NL bufferedLines) with
            | Threw e => (Thrown e, GenDone, w)
            | Returned chunk =>
                let '(_, w') :=
                  sessionLogger_log_opt rt self MODEL_RESPONSE
                    (obj {[ "url" := JStr url; "method" := JStr "POST";
                            "response" := chunk ]}) w in
                (Yielded chunk, GenSuspended bufferedLines rest fin, w')
            end
        end
      else if startsWith "data: " line then
        decode_loop rt self url
          (bufferedLines ++ [trim (slice_from 6 line)]) rest fin w
      else
        (Thrown (new_Error "Error"
                   ("Unexpected line format in response: " +:+ line)),
         GenDone, w)
  end.

(* One [next()] on the generator. *)
Definition gen_next (rt : Runtime) (g : Generator) (w : World)
  : IterResult * Generator * World :=
  match gen_phase g with
  | GenStart =>
      match data (gen_res g) with
      | JStream lines fin =>
          let '(r, ph, w') :=
            decode_loop rt (gen_self g) (gen_url g) [] lines fin w in
          (r, parked g ph, w')
      | _ =>
          (Thrown (new_Error "TypeError" "input.on is not a function"),
           parked g GenDone, w)
      end
  | GenSuspended _ rest fin =>
      (* resumes behind [yield chunk]: [bufferedLines = []] *)
      let '(r, ph, w') :=
        decode_loop rt (gen_self g) (gen_url g) [] rest fin w in
      (r, parked g ph, w')
  | GenDone => (Done, g, w)
  end.

(* A consumer that calls [next()] [n] times in a row. *)
Fixpoint nexts (rt : Runtime) (n : nat) (g : Generator) (w : World)
  : list IterResult * Generator * World :=
  match n with
  | O => ([], g, w)
  | S n' =>
      let '(r, g', w') := gen_next rt g w in
      let '(rs, g'', w'') := nexts rt n' g' w' in
      (r :: rs, g'', w'')
  end.

Definition requestStreamingPost (rt : Runtime) (self : CodeAssistServer)
    (method : string) (req : JsValue) (signal : JsValue) : M Generator :=
  w ← get_world;
  let url := getMethodUrl (env w) method in
  sessionLogger_log_opt rt self MODEL_REQUEST
    (obj {[ "url" := JStr url; "method" := JStr "POST";
            "params" := obj {[ "alt" := JStr "sse" ]}; "body" := req ]});;
  body ← lift (JSON_stringify rt req);
  res ← lift (request (client self)
                (mkRequestOptions url "POST" {[ "alt" := "sse" ]}
                   (request_headers self) "stream" (Some body) signal));
  mret (mkGenerator self url res GenStart).

(** *** Operations *)

(* [req.config?.abortSignal] *)
Definition abortSignal_of (req : JsValue) : Completion JsValue :=
  config ← get_prop req "config";
  mret (get_prop_opt config "abortSignal").

Definition generateContent (rt : Runtime) (cv : Converters)
    (self : CodeAssistServer) (req : JsValue) (userPromptId : string)
  : M JsValue :=
  let wire := toGenerateContentRequest cv req userPromptId
                (projectId self) (sessionId self) in
  signal ← lift (abortSignal_of req);
  resp ← requestPost rt self "generateContent" wire signal;
  mret (fromGenerateContentResponse cv resp).

Definition onboardUser (rt : Runtime) (self : CodeAssistServer)
    (req : JsValue) : M JsValue :=
  requestPost rt self "onboardUser" req JUndefined.

Definition loadCodeAssist (rt : Runtime) (cv : Converters)
    (self : CodeAssistServer) (req : JsValue) : M JsValue :=
  try_catch
    (requestPost rt self "loadCodeAssist" req JUndefined)
    (fun e =>
       affected ← lift (isVpcScAffectedUser e);
       if affected : bool then
         mret (obj {[ "currentTier" :=
                        obj {[ "id" := UserTierId_STANDARD cv ]} ]})
       else lift (Threw e)).

Definition getCodeAssistGlobalUserSetting (rt : Runtime)
    (self : CodeAssistServer) : M JsValue :=
  requestGet rt self "getCodeAssistGlobalUserSetting" JUndefined.

Definition setCodeAssistGlobalUserSetting (rt : Runtime)
    (self : CodeAssistServer) (req : JsValue) : M JsValue :=
  requestPost rt self "setCodeAssistGlobalUserSetting" req JUndefined.

Definition countTokens (rt : Runtime) (cv : Converters)
    (self : CodeAssistServer) (req : JsValue) : M JsValue :=
  resp ← requestPost rt self "countTokens" (toCountTokenRequest cv req)
           JUndefined;
  mret (fromCountTokenResponse cv resp).

Definition embedContent (self : CodeAssistServer) (_req : JsValue)
  : M JsValue :=
  lift (Threw Error_noarg).

(* The generator [generateContentStream] wraps around the decoder's:
   [for await (const resp of resps) yield fromGenerateContentResponse(resp)]. *)
Record ContentStream := mkContentStream {
  cs_resps : Generator;
  cs_finished : bool
}.

Definition ContentStream_next (rt : Runtime) (cv : Converters)
    (s : ContentStream) (w : World) : IterResult * ContentStream * World :=
  if cs_finished s then (Done, s, w)
  else
    let '(r, g', w') := gen_next rt (cs_resps s) w in
    match r with
    | Yielded resp =>
        (Yielded (fromGenerateContentResponse cv resp),
         mkContentStream g' false, w')
    | Done => (Done, mkContentStream g' true, w')
    | Thrown e => (Thrown e, mkContentStream g' true, w')
    end.

Definition generateContentStream (rt : Runtime) (cv : Converters)
    (self : CodeAssistServer) (req : JsValue) (userPromptId : string)
  : M ContentStream :=
  let wire := toGenerateContentRequest cv req userPromptId
                (projectId self) (sessionId self) in
  signal ← lift (abortSignal_of req);
  resps ← requestStreamingPost rt self "streamGenerateContent" wire signal;
  mret (mkContentStream resps false).

(** ** Consumers used to state the properties *)

Definition results_of {G} (x : list IterResult * G * World) : list IterResult :=
  x.1.1.

Definition world_of {G} (x : list IterResult * G * World) : World := x.2.

Definition generator_of {G} (x : list IterResult * G * World) : G := x.1.2.

(* The messages among the results of a run of [next()] calls. *)
Fixpoint yielded (rs : list IterResult) : list JsValue :=
  match rs with
  | [] => []
  | Yielded v :: rs' => v :: yielded rs'
  | _ :: rs' => yielded rs'
  end.

(* What a consumer sees on its first [n] calls of [next()] when the
   generator yields [msgs] and then ends with [fin]. *)
Fixpoint seen (n : nat) (msgs : list JsValue) (fin : IterResult)
  : list IterResult :=
  match n with
  | O => []
  | S n' =>
      match msgs with
      | v :: msgs' => Yielded v :: seen n' msgs' fin
      | [] => fin :: replicate n' Done
      end
  end.

(* The generator over a line source that has not been started. *)
Definition decoder (self : CodeAssistServer) (url : string)
    (lines : list string) (fin : option JsValue) : Generator :=
  mkGenerator self url (mkResponse (JStream lines fin)) GenStart.

(* Blocks of lines, each closed by a blank line. *)
Definition framed (blocks : list (list string)) : list string :=
  List.concat (map (fun b => b ++ [""]) blocks).

(* [bufferedLines] after the data lines [b] of one block. *)
Definition fragments (b : list string) : list string :=
  map (fun line => trim (slice_from 6 line)) b.

Definition nonempty (b : list string) : bool :=
  match b with
  | [] => false
  | _ :: _ => true
  end.

(* A pure account of the decoding loop, used in the proofs: the messages a
   run over [lines] produces from the buffer [buf], and whether the loop is
   then still reading (with which buffer) or has stopped on an error. *)
Inductive Progress :=
| Reading (bufferedLines : list string)
| Stopped (e : JsValue).

Fixpoint feed (rt : Runtime) (buf : list string) (lines : list string)
  : list JsValue * Progress :=
  match lines with
  | [] => ([], Reading buf)
  | line :: rest =>
      if line =? "" then
        match buf with
        | [] => feed rt buf rest
        | _ :: _ =>
            match JSON_parse rt (join NL buf) with
            | Threw e => ([], Stopped e)
            | Returned chunk =>
                let '(msgs, p) := feed rt [] rest in (chunk :: msgs, p)
            end
        end
      else if startsWith "data: " line then
        feed rt (buf ++ [trim (slice_from 6 line)]) rest
      else
        ([], Stopped (new_Error "Error"
                        ("Unexpected line format in response: " +:+ line)))
  end.

(* How the generator ends once the loop has gone through all lines. *)
Definition ending (fin : option JsValue) (p : Progress) : IterResult :=
  match p with
  | Stopped e => Thrown e
  | Reading _ =>
      match fin with
      | None => Done
      | Some e => Thrown e
      end
  end.

(* The lines a generator still has before it, and how their source ends. *)
Definition pending_source (g : Generator) : list string * option JsValue :=
  match gen_phase g with
  | GenStart =>
      match data (gen_res g) with
      | JStream lines fin => (lines, fin)
      | _ => ([], Some (new_Error "TypeError" "input.on is not a function"))
      end
  | GenSuspended _ rest fin => (rest, fin)
  | GenDone => ([], None)
  end.

(* The payload of the log call that precedes [yield chunk]. *)
Definition response_entry (url : string) (chunk : JsValue) : JsValue :=
  obj {[ "url" := JStr url; "method" := JStr "POST"; "response" := chunk ]}.

(* The same platform with other behaviour of what the logger relies on. *)
Definition with_logger_io (stringify : JsValue -> Completion string)
    (appendFile : gmap string string -> string -> string
                  -> Completion (gmap string string))
    (rt : Runtime) : Runtime :=
  mkRuntime (JSON_parse rt) (JSON_stringify rt) stringify appendFile
            (fs_mkdir rt) (path_join rt).

Definition count_responses (calls : list (LogObjectType * JsValue)) : nat :=
  List.length
    (List.filter (fun c => LogObjectType_eqb c.1 MODEL_RESPONSE) calls).

(** *** A streaming call under cancellation

    The signal of a streaming call is handed to [client.request] and to
    nothing else.  What its firing does to the response stream is the
    transport's business: the line source may go on delivering lines (those
    already received, for one), and then close, fail, or never end. *)

(* How the line source ends after the firing. *)
Inductive SourceEnd :=
| Closes
| Fails (e : JsValue)
| Stalls.

Definition source_end (after : SourceEnd) : option JsValue :=
  match after with
  | Fails e => Some e
  | Closes | Stalls => None
  end.

Definition is_stalls (after : SourceEnd) : bool :=
  match after with
  | Stalls => true
  | Closes | Fails _ => false
  end.

(* What a [next()] comes to for the consumer: its promise settles, or it
   stays pending for good. *)
Inductive Outcome :=
| Settled (r : IterResult)
| NeverSettles.

(* A streaming call in progress: the generator, the signal that was handed
   to the transport, whether the line source is one that will never end,
   and whether a [next()] is waiting on it. *)
Record Stream := mkStream {
  stream_gen : Generator;
  stream_signal : positive;
  stream_stalls : bool;
  stream_hung : bool
}.

(* The generator still has a line source to read from. *)
Definition reading (g : Generator) : bool :=
  match gen_phase g with
  | GenStart =>
      match data (gen_res g) with
      | JStream _ _ => true
      | _ => false
      end
  | GenSuspended _ _ _ => true
  | GenDone => false
  end.

(* The generator with the rest of its line source replaced by what the
   source delivers from now on. *)
Definition redirect (delivered : list string) (after : SourceEnd)
    (g : Generator) : Generator :=
  match gen_phase g with
  | GenStart =>
      match data (gen_res g) with
      | JStream _ _ =>
          mkGenerator (gen_self g) (gen_url g)
            (mkResponse (JStream delivered (source_end after))) GenStart
      | _ => g
      end
  | GenSuspended b _ _ =>
      parked g (GenSuspended b delivered (source_end after))
  | GenDone => g
  end.

(* The consumer calls [next()], or fires the signal; with the firing comes
   what the line source delivers after it. *)
Inductive ConsumerStep :=
| Pull
| Fire (delivered : list string) (after : SourceEnd).

(* One [next()] on a stream.  A generator that comes to the end of a line
   source that never ends waits there: this call and every later one stay
   pending. *)
Definition stream_next (rt : Runtime) (s : Stream) (w : World)
  : Outcome * Stream * World :=
  if stream_hung s then (NeverSettles, s, w)
  else
    let '(r, g', w') := gen_next rt (stream_gen s) w in
    match r with
    | Yielded _ =>
        (Settled r, mkStream g' (stream_signal s) (stream_stalls s) false, w')
    | Thrown _ =>
        (Settled r, mkStream g' (stream_signal s) false false, w')
    | Done =>
        if stream_stalls s then
          (NeverSettles, mkStream g' (stream_signal s) true true, w')
        else
          (Settled Done, mkStream g' (stream_signal s) false false, w')
    end.

(* The firing: the signal is marked as fired, and a generator that is
   still reading gets the line source of after the firing. *)
Definition stream_fire (delivered : list string) (after : SourceEnd)
    (s : Stream) (w : World) : Stream * World :=
  if stream_hung s then (s, fire (stream_signal s) w)
  else
    (mkStream (redirect delivered after (stream_gen s)) (stream_signal s)
       (if reading (stream_gen s) then is_stalls after else stream_stalls s)
       false,
     fire (stream_signal s) w).

Fixpoint run_consumer (rt : Runtime) (steps : list ConsumerStep)
    (s : Stream) (w : World) : list Outcome * Stream * World :=
  match steps with
  | [] => ([], s, w)
  | Pull :: steps' =>
      let '(o, s', w') := stream_next rt s w in
      let '(os, s'', w'') := run_consumer rt steps' s' w' in
      (o :: os, s'', w'')
  | Fire delivered after :: steps' =>
      let '(s', w') := stream_fire delivered after s w in
      run_consumer rt steps' s' w'
  end.

Definition outcomes_of (x : list Outcome * Stream * World) : list Outcome :=
  x.1.1.

(* The results of calls on a line source that never ends: the call that
   reaches its end, and every call after it, stays pending. *)
Fixpoint stalled (rs : list IterResult) : list Outcome :=
  match rs with
  | [] => []
  | Yielded v :: rs' => Settled (Yielded v) :: stalled rs'
  | Done :: rs' => replicate (S (List.length rs')) NeverSettles
  | Thrown e :: rs' => map Settled (Thrown e :: rs')
  end.

(* What the consumer gets of the results [rs] of decoding a line source
   that ends as [after] says. *)
Definition after_firing (after : SourceEnd) (rs : list IterResult)
  : list Outcome :=
  if is_stalls after then stalled rs else map Settled rs.

(** *** The call sites with any logger object

    [sessionLogger] is declared with the class [SessionLogger]; an object
    of a subclass, or a test double, may come with another [log].  What a
    call of [log] can do to its caller: throw, or return a promise, which
    fulfils or rejects later. *)

Inductive LogCall :=
| LogThrows (e : JsValue)
| LogReturns (promise : Completion unit).

(* A logger object, known by what calling its [log] does. *)
Definition LoggerObject : Type :=
  LogObjectType -> JsValue -> World -> LogCall * World.

(* An object of the class itself: [log] is an [async] method, so the call
   returns its promise, whatever happens in its body. *)
Definition SessionLogger_object (rt : Runtime) (lg : SessionLogger)
  : LoggerObject :=
  fun type data w =>
    let '(c, w') := SessionLogger_log rt lg type data w in (LogReturns c, w').

(* [this.sessionLogger?.log(type, data)] for any logger object: the call
   is neither awaited nor guarded, so a promise is dropped and a throw goes
   on to the caller. *)
Definition log_call_site (logger : option LoggerObject)
    (type : LogObjectType) (data : JsValue) : M unit :=
  match logger with
  | Some log =>
      fun w =>
        match log type data w with
        | (LogThrows e, w') => (Threw e, w')
        | (LogReturns _, w') => (Returned tt, w')
        end
  | None => mret tt
  end.

(* The dispatcher of a server whose [sessionLogger] is [logger]. *)
Definition requestPost_with (logger : option LoggerObject) (rt : Runtime)
    (self : CodeAssistServer) (method : string) (req : JsValue)
    (signal : JsValue) : M JsValue :=
  w ← get_world;
  let url := getMethodUrl (env w) method in
  log_call_site logger MODEL_REQUEST
    (obj {[ "url" := JStr url; "method" := JStr "POST"; "body" := req ]});;
  body ← lift (JSON_stringify rt req);
  res ← lift (request (client self)
                (mkRequestOptions url "POST" ∅ (request_headers self)
                   "json" (Some body) signal));
  log_call_site logger MODEL_RESPONSE
    (obj {[ "url" := JStr url; "method" := JStr "POST";
            "response" := data res ]});;
  mret (data res).

Definition requestGet_with (logger : option LoggerObject) (rt : Runtime)
    (self : CodeAssistServer) (method : string) (signal : JsValue)
  : M JsValue :=
  w ← get_world;
  let url := getMethodUrl (env w) method in
  log_call_site logger MODEL_REQUEST
    (obj {[ "url" := JStr url; "method" := JStr "GET" ]});;
  res ← lift (request (client self)
                (mkRequestOptions url "GET" ∅ (request_headers self)
                   "json" None signal));
  log_call_site logger MODEL_RESPONSE
    (obj {[ "url" := JStr url; "method" := JStr "GET";
            "response" := data res ]});;
  mret (data res).

Fixpoint decode_loop_with (logger : option LoggerObject) (rt : Runtime)
    (url : string) (bufferedLines : list string) (lines : list string)
    (fin : option JsValue) (w : World) : IterResult * GenPhase * World :=
  match lines with
  | [] =>
      match fin with
      | None => (Done, GenDone, w)
      | Some e => (Thrown e, GenDone, w)
      end
  | line :: rest =>
      if line =? "" then
        match bufferedLines with
        | [] => decode_loop_with logger rt url bufferedLines rest fin w
        | _ :: _ =>
            match JSON_parse rt (join NL bufferedLines) with
            | Threw e => (Thrown e, GenDone, w)
            | Returned chunk =>
                match log_call_site logger MODEL_RESPONSE
                        (obj {[ "url" := JStr url; "method" := JStr "POST";
                                "response" := chunk ]}) w with
                | (Threw e, w') => (Thrown e, GenDone, w')
                | (Returned _, w') =>
                    (Yielded chunk, GenSuspended bufferedLines rest fin, w')
                end
            end
        end
      else if startsWith "data: " line then
        decode_loop_with logger rt url
          (bufferedLines ++ [trim (slice_from 6 line)]) rest fin w
      else
        (Thrown (new_Error "Error"
                   ("Unexpected line format in response: " +:+ line)),
         GenDone, w)
  end.

Definition gen_next_with (logger : option LoggerObject) (rt : Runtime)
    (g : Generator) (w : World) : IterResult * Generator * World :=
  match gen_phase g with
  | GenStart =>
      match data (gen_res g) with
      | JStream lines fin =>
          let '(r, ph, w') :=
            decode_loop_with logger rt (gen_url g) [] lines fin w in
          (r, parked g ph, w')
      | _ =>
          (Thrown (new_Error "TypeError" "input.on is not a function"),
           parked g GenDone, w)
      end
  | GenSuspended _ rest fin =>
      let '(r, ph, w') :=
        decode_loop_with logger rt (gen_url g) [] rest fin w in
      (r, parked g ph, w')
  | GenDone => (Done, g, w)
  end.

Fixpoint nexts_with (logger : option LoggerObject) (rt : Runtime) (n : nat)
    (g : Generator) (w : World) : list IterResult * Generator * World :=
  match n with
  | O => ([], g, w)
  | S n' =>
      let '(r, g', w') := gen_next_with logger rt g w in
      let '(rs, g'', w'') := nexts_with logger rt n' g' w' in
      (r :: rs, g'', w'')
  end.

Definition requestStreamingPost_with (logger : option LoggerObject)
    (rt : Runtime) (self : CodeAssistServer) (method : string)
    (req : JsValue) (signal : JsValue) : M Generator :=
  w ← get_world;
  let url := getMethodUrl (env w) method in
  log_call_site logger MODEL_REQUEST
    (obj {[ "url" := JStr url; "method" := JStr "POST";
            "params" := obj {[ "alt" := JStr "sse" ]}; "body" := req ]});;
  body ← lift (JSON_stringify rt req);
  res ← lift (request (client self)
                (mkRequestOptions url "POST" {[ "alt" := "sse" ]}
                   (request_headers self) "stream" (Some body) signal));
  mret (mkGenerator self url res GenStart).

(* A streaming call followed by [n] calls of [next()]. *)
Definition stream_outcome_with (logger : option LoggerObject) (rt : Runtime)
    (self : CodeAssistServer) (method : string) (req signal : JsValue)
    (n : nat) (w : World) : Completion (list IterResult) :=
  match requestStreamingPost_with logger rt self method req signal w with
  | (Returned g, w') => Returned (results_of (nexts_with logger rt n g w'))
  | (Threw e, _) => Threw e
  end.

(* The logger object a server holds when its [sessionLogger] is an object
   of the class. *)
Definition class_logger (rt : Runtime) (self : CodeAssistServer)
  : option LoggerObject :=
  SessionLogger_object rt <$> sessionLogger self.

(* A logger whose [log] never throws into its caller: it is absent, or
   every call returns a promise. *)
Definition returns_promise (logger : option LoggerObject) : Prop :=
  ∀ log type data w,
    logger = Some log -> ∃ c, (log type data w).1 = LogReturns c.

(* The request a unary POST, a unary GET and a streaming POST hand to the
   transport. *)
Definition post_options (self : CodeAssistServer) (w : World)
    (method body : string) (signal : JsValue) : RequestOptions :=
  mkRequestOptions (getMethodUrl (env w) method) "POST" ∅
    (request_headers self) "json" (Some body) signal.

Definition get_options (self : CodeAssistServer) (w : World)
    (method : string) (signal : JsValue) : RequestOptions :=
  mkRequestOptions (getMethodUrl (env w) method) "GET" ∅
    (request_headers self) "json" None signal.

Definition stream_options (self : CodeAssistServer) (w : World)
    (method body : string) (signal : JsValue) : RequestOptions :=
  mkRequestOptions (getMethodUrl (env w) method) "POST" {[ "alt" := "sse" ]}
    (request_headers self) "stream" (Some body) signal.

(* The object [loadCodeAssist] answers with in place of a policy error. *)
Definition standard_tier (cv : Converters) : JsValue :=
  obj {[ "currentTier" := obj {[ "id" := UserTierId_STANDARD cv ]} ]}.

(* A transport error whose response body carries [details] as
   [error.details]. *)
Definition gaxios_error (details : JsValue) : JsValue :=
  JObj "GaxiosError"
    {[ "message" := JStr "Request failed with status code 403";
       "response" :=
         obj {[ "status" := JNum 403;
                "data" := obj {[ "error" := obj {[ "details" := details ]} ]}
             ]} ]}.

(* The array found at [error.response.data.error.details], if there is
   one. *)
Definition details_array (error : JsValue) : option (list JsValue) :=
  match error with
  | JObj _ props =>
      match props !! "response" with
      | Some r =>
          match get_prop_opt (get_prop_opt (get_prop_opt r "data") "error")
                  "details" with
          | JArr entries => Some entries
          | _ => None
          end
      | None => None
      end
  | _ => None
  end.

(* An entry whose [reason] is the policy marker. *)
Definition names_violation (detail : JsValue) : bool :=
  strict_eq_str (get_prop_opt detail "reason") "SECURITY_POLICY_VIOLATED".

(* [n] calls of [next()] on the stream of [generateContentStream]. *)
Fixpoint ContentStream_nexts (rt : Runtime) (cv : Converters) (n : nat)
    (s : ContentStream) (w : World)
  : list IterResult * ContentStream * World :=
  match n with
  | O => ([], s, w)
  | S n' =>
      let '(r, s', w') := ContentStream_next rt cv s w in
      let '(rs, s'', w'') := ContentStream_nexts rt cv n' s' w' in
      (r :: rs, s'', w'')
  end.

(* What the wrapping generator makes of a result of the decoder's. *)
Definition converted (cv : Converters) (r : IterResult) : IterResult :=
  match r with
  | Yielded resp => Yielded (fromGenerateContentResponse cv resp)
  | Done => Done
  | Thrown e => Thrown e
  end.

(* The log entries of a unary call and of the opening of a streaming
   call. *)
Definition post_request_entry (url : string) (req : JsValue) : JsValue :=
  obj {[ "url" := JStr url; "method" := JStr "POST"; "body" := req ]}.

Definition get_request_entry (url : string) : JsValue :=
  obj {[ "url" := JStr url; "method" := JStr "GET" ]}.

Definition get_response_entry (url : string) (body : JsValue) : JsValue :=
  obj {[ "url" := JStr url; "method" := JStr "GET"; "response" := body ]}.

Definition stream_request_entry (url : string) (req : JsValue) : JsValue :=
  obj {[ "url" := JStr url; "method" := JStr "POST";
         "params" := obj {[ "alt" := JStr "sse" ]}; "body" := req ]}.

(* A file system whose [appendFile] appends, creating the file when it is
   not there. *)
Definition appending (rt : Runtime) : Prop :=
  ∀ (fs : gmap string string) (path text : string),
    fs_appendFile rt fs path text
    = Returned (<[ path := default "" (fs !! path) +:+ text ]> fs).

(** *** The replacer of [SessionLogger.log]

    [JSON.stringify] hands the replacer every value it is about to write.
    What the replacer tells apart is whether the value is a BigInt, an
    object (known by its identity, here its address) or anything else. *)

Inductive Visited :=
| VBigInt (z : Z)
| VObject (addr : positive)
| VOther (v : JsValue).

(* What the replacer returns: a string, or the value it was given. *)
Inductive Replaced :=
| RString (s : string)
| RSame.

(* [value.toString()] of a BigInt: its decimal digits, with a minus sign
   when it is negative. *)
Definition BigInt_toString (z : Z) : string :=
  DecimalString.NilZero.string_of_int (Z.to_int z).

(* The function [getCircularReplacer()] returns; [seen] is its WeakSet. *)
Definition replacer (seen : gset positive) (key : string) (value : Visited)
  : Replaced * gset positive :=
  match value with
  | VBigInt z => (RString (BigInt_toString z), seen)
  | VObject addr =>
      if decide (addr ∈ seen) then (RString "[Circular]", seen)
      else (RSame, {[ addr ]} ∪ seen)
  | VOther _ => (RSame, seen)
  end.

(* The replacer over the values of one [JSON.stringify], in the order in
   which they are visited. *)
Fixpoint replace_visits (seen : gset positive)
    (visits : list (string * Visited)) : list Replaced :=
  match visits with
  | [] => []
  | (key, value) :: rest =>
      let '(r, seen') := replacer seen key value in
      r :: replace_visits seen' rest
  end.

(* The objects among the visited values. *)
Fixpoint objects_of (visits : list (string * Visited)) : gset positive :=
  match visits with
  | [] => ∅
  | (_, VObject addr) :: rest => {[ addr ]} ∪ objects_of rest
  | _ :: rest => objects_of rest
  end.

(* The entry [log] writes. *)
Definition log_entry (w : World) (type : LogObjectType) (data : JsValue)
  : JsValue :=
  obj {[ "timestamp" := JStr (clock w);
         "type" := JStr (LogObjectType_value type);
         "data" := data ]}.

(** ** A sample platform

    Concrete instances of the records above, on which the statements
    below can be run.  [read_json] reads a fragment of JSON (literals,
    integers, strings without escapes, arrays, objects); it stands in for
    [JSON.parse] in the examples only. *)

Module Sample.

Definition codes (s : string) : list N :=
  map N_of_ascii (list_ascii_of_string s).

Definition text_of (cs : list N) : string :=
  string_of_list_ascii (map ascii_of_N cs).

Definition is_digit (c : N) : bool := (48 <=? c)%N && (c <=? 57)%N.

Fixpoint skip_ws (cs : list N) : list N :=
  match cs with
  | c :: r =>
      if (c =? 32)%N || (c =? 9)%N || (c =? 10)%N || (c =? 13)%N
      then skip_ws r else cs
  | [] => []
  end.

Fixpoint read_digits (acc : Z) (cs : list N) : Z * list N :=
  match cs with
  | c :: r =>
      if is_digit c then read_digits (10 * acc + Z.of_N (c - 48)) r
      else (acc, cs)
  | [] => (acc, [])
  end.

(* The characters up to the closing quote (code 34); a backslash (92) is
   outside the fragment. *)
Fixpoint read_string (acc : list N) (cs : list N) : option (string * list N) :=
  match cs with
  | [] => None
  | c :: r =>
      if (c =? 34)%N then Some (text_of (List.rev acc), r)
      else if (c =? 92)%N then None
      else read_string (c :: acc) r
  end.

Fixpoint read_value (fuel : nat) (cs : list N) : option (JsValue * list N) :=
  match fuel with
  | O => None
  | S fuel' =>
      match skip_ws cs with
      | 110 :: 117 :: 108 :: 108 :: r => Some (JNull, r)
      | 116 :: 114 :: 117 :: 101 :: r => Some (JBool true, r)
      | 102 :: 97 :: 108 :: 115 :: 101 :: r => Some (JBool false, r)
      | 34 :: r =>
          match read_string [] r with
          | Some (s, r') => Some (JStr s, r')
          | None => None
          end
      | 91 :: r =>
          match skip_ws r with
          | 93 :: r' => Some (JArr [], r')
          | _ =>
              match read_elements fuel' r with
              | Some (xs, r') => Some (JArr xs, r')
              | None => None
              end
          end
      | 123 :: r =>
          match skip_ws r with
          | 125 :: r' => Some (obj ∅, r')
          | _ =>
              match read_members fuel' r with
              | Some (m, r') => Some (obj m, r')
              | None => None
              end
          end
      | 45 :: c :: r =>
          if is_digit c then
            let '(z, r') := read_digits 0 (c :: r) in Some (JNum (- z), r')
          else None
      | c :: r =>
          if is_digit c then
            let '(z, r') := read_digits 0 (c :: r) in Some (JNum z, r')
          else None
      | [] => None
      end
  end%N
with read_elements (fuel : nat) (cs : list N)
  : option (list JsValue * list N) :=
  match fuel with
  | O => None
  | S fuel' =>
      match read_value fuel' cs with
      | Some (v, r) =>
          match skip_ws r with
          | 44 :: r' =>
              match read_elements fuel' r' with
              | Some (vs, r'') => Some (v :: vs, r'')
              | None => None
              end
          | 93 :: r' => Some ([v], r')
          | _ => None
          end
      | None => None
      end
  end%N
with read_members (fuel : nat) (cs : list N)
  : option (gmap string JsValue * list N) :=
  match fuel with
  | O => None
  | S fuel' =>
      match skip_ws cs with
      | 34 :: r =>
          match read_string [] r with
          | Some (k, r1) =>
              match skip_ws r1 with
              | 58 :: r2 =>
                  match read_value fuel' r2 with
                  | Some (v, r3) =>
                      match skip_ws r3 with
                      | 44 :: r4 =>
                          match read_members fuel' r4 with
                          | Some (m, r5) => Some (m ∪ {[ k := v ]}, r5)
                          | None => None
                          end
                      | 125 :: r4 => Some ({[ k := v ]}, r4)
                      | _ => None
                      end
                  | None => None
                  end
              | _ => None
              end
          | None => None
          end
      | _ => None
      end
  end%N.

Definition SyntaxError : JsValue :=
  new_Error "SyntaxError" "Unexpected token in JSON".

Definition read_json (text : string) : Completion JsValue :=
  let cs := codes text in
  match read_value (2 * List.length cs + 2) cs with
  | Some (v, r) =>
      match skip_ws r with
      | [] => Returned v
      | _ :: _ => Threw SyntaxError
      end
  | None => Threw SyntaxError
  end.

(* A file system in which every append succeeds. *)
Definition appendFile_ok (fs : gmap string string) (path text : string)
  : Completion (gmap string string) :=
  Returned (<[ path := default "" (fs !! path) +:+ text ]> fs).

(* A file system in which every append is rejected. *)
Definition appendFile_failing (fs : gmap string string) (path text : string)
  : Completion (gmap string string) :=
  Threw (new_Error "Error" "EACCES: permission denied").

Definition stringify_const (v : JsValue) : Completion string :=
  Returned "{}".

Definition stringify_throwing (v : JsValue) : Completion string :=
  Threw (new_Error "TypeError" "Converting circular structure to JSON").

Definition runtime : Runtime :=
  mkRuntime read_json stringify_const stringify_const appendFile_ok
            (fun fs _ => Returned fs)
            (fun a b => a +:+ "/" +:+ b).

Definition converters : Converters :=
  mkConverters (fun req _ _ _ => req) (fun v => v) (fun v => v) (fun v => v)
               (JStr "standard-tier").

Definition world : World := mkWorld ∅ ∅ [] "2025-01-01T00:00:00.000Z" ∅ [].

Definition logger : SessionLogger :=
  mkSessionLogger (Some "/tmp/logs/s.log.jsonl") "s" true (mkStorage "/tmp").

(* A transport that answers every request with [res]. *)
Definition client_answering (res : JsValue) : OAuth2Client :=
  mkClient (fun _ => Returned (mkResponse res)).

(* A transport that fails every request with [e]. *)
Definition client_failing (e : JsValue) : OAuth2Client :=
  mkClient (fun _ => Threw e).

Definition server (c : OAuth2Client) (lg : option SessionLogger)
  : CodeAssistServer :=
  mkServer c None (mkHttpOptions None) None None lg.

End Sample.

(** * Properties *)

(** ** Endpoint resolver *)

(** C6: for every method name [m], [getMethodUrl] returns
    endpoint/v1internal:m, where the endpoint is the value of
    CODE_ASSIST_ENDPOINT in the environment of the call when it is set
    (taken verbatim) and https://cloudcode-pa.googleapis.com otherwise.  The
    environment is read by each call: after setting or unsetting the
    variable the next call follows the new value. *)
Theorem getMethodUrl_format (env : gmap string string) (m : string) :
  getMethodUrl env m
  = default "https://cloudcode-pa.googleapis.com"
      (env !! "CODE_ASSIST_ENDPOINT") +:+ "/" +:+ "v1internal" +:+ ":" +:+ m
  ∧ (∀ v : string,
       getMethodUrl (<[ "CODE_ASSIST_ENDPOINT" := v ]> env) m
       = v +:+ "/v1internal:" +:+ m)
  ∧ getMethodUrl (delete "CODE_ASSIST_ENDPOINT" env) m
    = "https://cloudcode-pa.googleapis.com/v1internal:" +:+ m.
Proof.
  split; [reflexivity | split].
  - intros v. unfold getMethodUrl. rewrite lookup_insert_eq. reflexivity.
  - unfold getMethodUrl. rewrite lookup_delete_eq. reflexivity.
Qed.

Example getMethodUrl_countTokens :
  getMethodUrl ∅ "countTokens"
  = "https://cloudcode-pa.googleapis.com/v1internal:countTokens".
Proof. reflexivity. Qed.

(** ** Unary calls *)

(* Unfolds the monadic plumbing down to matches on completions. *)
Ltac unmonad :=
  unfold mbind, M_bind, Completion_bind, mret, M_ret, Completion_ret, lift,
    get_world, modify, try_catch in *; cbn in *.

Section Calls.
Context (rt : Runtime) (cv : Converters).

(* The session logger's promise always fulfils: what goes wrong inside
   [log] ends in its own [catch]. *)
Lemma SessionLogger_log_fulfils lg type d w :
  (SessionLogger_log rt lg type d w).1 = Returned tt.
Proof.
  unfold SessionLogger_log, mbind, M_bind, modify, mret, M_ret, get_world,
    try_catch, lift.
  destruct (negb (initialized lg) || negb (path_truthy (logFilePath lg)));
    [reflexivity |].
  cbn. destruct (JSON_stringify_replaced rt _); [| reflexivity].
  cbn. destruct (fs_appendFile rt _ _ _); reflexivity.
Qed.

(* Nor does [initialize] throw: a failing [mkdir] is reported on the
   console and leaves the logger uninitialized. *)
Lemma SessionLogger_initialize_returns lg w :
  ∃ lg', (SessionLogger_initialize rt lg w).1 = Returned lg'.
Proof.
  unfold SessionLogger_initialize. destruct (initialized lg).
  - exists lg. reflexivity.
  - unmonad. destruct (fs_mkdir rt _ _); eexists; reflexivity.
Qed.

(* A log call changes neither the environment nor the fired signals. *)
Lemma SessionLogger_log_env lg type d w :
  env (SessionLogger_log rt lg type d w).2 = env w
  ∧ aborted (SessionLogger_log rt lg type d w).2 = aborted w.
Proof.
  unfold SessionLogger_log, mbind, M_bind, modify, mret, M_ret, get_world,
    try_catch, lift.
  destruct (negb (initialized lg) || negb (path_truthy (logFilePath lg)));
    [split; reflexivity |].
  cbn. destruct (JSON_stringify_replaced rt _); [| split; reflexivity].
  cbn. destruct (fs_appendFile rt _ _ _); split; reflexivity.
Qed.

Lemma SessionLogger_log_calls lg type d w :
  log_calls (SessionLogger_log rt lg type d w).2 = log_calls w ++ [(type, d)].
Proof.
  unfold SessionLogger_log, mbind, M_bind, modify, mret, M_ret, get_world,
    try_catch, lift.
  destruct (negb (initialized lg) || negb (path_truthy (logFilePath lg)));
    [reflexivity |].
  cbn. destruct (JSON_stringify_replaced rt _); [| reflexivity].
  cbn. destruct (fs_appendFile rt _ _ _); reflexivity.
Qed.

Lemma sessionLogger_log_opt_returns self type d w :
  (sessionLogger_log_opt rt self type d w).1 = Returned tt.
Proof. unfold sessionLogger_log_opt. destruct (sessionLogger self); reflexivity. Qed.

Lemma sessionLogger_log_opt_env self type d w :
  env (sessionLogger_log_opt rt self type d w).2 = env w.
Proof.
  unfold sessionLogger_log_opt. destruct (sessionLogger self); [| reflexivity].
  apply SessionLogger_log_env.
Qed.

Lemma requestPost_result self method req signal w :
  (requestPost rt self method req signal w).1
  = (body ← JSON_stringify rt req;
     res ← request (client self) (post_options self w method body signal);
     mret (data res)).
Proof.
  unfold requestPost, post_options. unmonad.
  pose proof (sessionLogger_log_opt_returns self MODEL_REQUEST
    (obj {[ "url" := JStr (getMethodUrl (env w) method);
            "method" := JStr "POST"; "body" := req ]}) w) as H1.
  destruct (sessionLogger_log_opt rt self MODEL_REQUEST _ w) as [c1 w1].
  cbn in H1. subst c1.
  destruct (JSON_stringify rt req) as [body |]; [| reflexivity].
  destruct (request (client self) _) as [res |]; [| reflexivity].
  pose proof (sessionLogger_log_opt_returns self MODEL_RESPONSE
    (obj {[ "url" := JStr (getMethodUrl (env w) method);
            "method" := JStr "POST"; "response" := data res ]}) w1) as H2.
  destruct (sessionLogger_log_opt rt self MODEL_RESPONSE _ w1) as [c2 w2].
  cbn in H2. subst c2. reflexivity.
Qed.

Lemma requestGet_result self method signal w :
  (requestGet rt self method signal w).1
  = (res ← request (client self) (get_options self w method signal);
     mret (data res)).
Proof.
  unfold requestGet, get_options. unmonad.
  pose proof (sessionLogger_log_opt_returns self MODEL_REQUEST
    (obj {[ "url" := JStr (getMethodUrl (env w) method);
            "method" := JStr "GET" ]}) w) as H1.
  destruct (sessionLogger_log_opt rt self MODEL_REQUEST _ w) as [c1 w1].
  cbn in H1. subst c1.
  destruct (request (client self) _) as [res |]; [| reflexivity].
  pose proof (sessionLogger_log_opt_returns self MODEL_RESPONSE
    (obj {[ "url" := JStr (getMethodUrl (env w) method);
            "method" := JStr "GET"; "response" := data res ]}) w1) as H2.
  destruct (sessionLogger_log_opt rt self MODEL_RESPONSE _ w1) as [c2 w2].
  cbn in H2. subst c2. reflexivity.
Qed.

Lemma requestStreamingPost_result self method req signal w :
  (requestStreamingPost rt self method req signal w).1
  = (body ← JSON_stringify rt req;
     res ← request (client self) (stream_options self w method body signal);
     mret (mkGenerator self (getMethodUrl (env w) method) res GenStart)).
Proof.
  unfold requestStreamingPost, stream_options. unmonad.
  pose proof (sessionLogger_log_opt_returns self MODEL_REQUEST
    (obj {[ "url" := JStr (getMethodUrl (env w) method);
            "method" := JStr "POST";
            "params" := obj {[ "alt" := JStr "sse" ]}; "body" := req ]}) w)
    as H1.
  destruct (sessionLogger_log_opt rt self MODEL_REQUEST _ w) as [c1 w1].
  cbn in H1. subst c1.
  destruct (JSON_stringify rt req) as [body |]; [| reflexivity].
  destruct (request (client self) _) as [res |]; reflexivity.
Qed.

(* A transport failure reaches the caller of [requestPost] as it is. *)
Lemma requestPost_propagates self method req signal w body e :
  JSON_stringify rt req = Returned body ->
  request (client self) (post_options self w method body signal) = Threw e ->
  (requestPost rt self method req signal w).1 = Threw e.
Proof.
  intros Hs Hr. rewrite requestPost_result, Hs. cbn. rewrite Hr. reflexivity.
Qed.

Lemma requestGet_propagates self method signal w e :
  request (client self) (get_options self w method signal) = Threw e ->
  (requestGet rt self method signal w).1 = Threw e.
Proof. intros Hr. rewrite requestGet_result, Hr. reflexivity. Qed.

Lemma bind_fst {A B} (m : M A) (k : A -> M B) w :
  (mbind k m w).1
  = match m w with
    | (Returned a, w') => (k a w').1
    | (Threw e, _) => Threw e
    end.
Proof. unmonad. destruct (m w) as [[a | e] w']; reflexivity. Qed.

Lemma onboardUser_propagates self req w body e :
  JSON_stringify rt req = Returned body ->
  request (client self) (post_options self w "onboardUser" body JUndefined)
  = Threw e ->
  (onboardUser rt self req w).1 = Threw e.
Proof. apply requestPost_propagates. Qed.

Lemma setCodeAssistGlobalUserSetting_propagates self req w body e :
  JSON_stringify rt req = Returned body ->
  request (client self)
    (post_options self w "setCodeAssistGlobalUserSetting" body JUndefined)
  = Threw e ->
  (setCodeAssistGlobalUserSetting rt self req w).1 = Threw e.
Proof. apply requestPost_propagates. Qed.

Lemma getCodeAssistGlobalUserSetting_propagates self w e :
  request (client self)
    (get_options self w "getCodeAssistGlobalUserSetting" JUndefined)
  = Threw e ->
  (getCodeAssistGlobalUserSetting rt self w).1 = Threw e.
Proof. apply requestGet_propagates. Qed.

Lemma countTokens_propagates self req w body e :
  JSON_stringify rt (toCountTokenRequest cv req) = Returned body ->
  request (client self) (post_options self w "countTokens" body JUndefined)
  = Threw e ->
  (countTokens rt cv self req w).1 = Threw e.
Proof.
  intros Hs Hr. unfold countTokens. rewrite bind_fst.
  pose proof (requestPost_propagates self "countTokens"
                (toCountTokenRequest cv req) JUndefined w body e Hs Hr) as H.
  destruct (requestPost rt self "countTokens" _ JUndefined w) as [[a | e'] w'];
    cbn in H; [discriminate | exact H].
Qed.

Lemma generateContent_propagates self req prompt w signal body e :
  abortSignal_of req = Returned signal ->
  JSON_stringify rt
    (toGenerateContentRequest cv req prompt (projectId self) (sessionId self))
  = Returned body ->
  request (client self) (post_options self w "generateContent" body signal)
  = Threw e ->
  (generateContent rt cv self req prompt w).1 = Threw e.
Proof.
  intros Ha Hs Hr. unfold generateContent. rewrite bind_fst.
  unfold lift. rewrite Ha. rewrite bind_fst.
  pose proof (requestPost_propagates self "generateContent" _ signal w body e
                Hs Hr) as H.
  destruct (requestPost rt self "generateContent" _ signal w)
    as [[a | e'] w']; cbn in H; [discriminate | exact H].
Qed.

(** ** Error classifier and tier fallback *)

Lemma isVpcScAffectedUser_details error :
  isVpcScAffectedUser error
  = match details_array error with
    | Some entries => array_some detail_matches entries
    | None => Returned false
    end.
Proof.
  unfold isVpcScAffectedUser, details_array.
  destruct error as [| | b | z | s | xs | cls props | ls fin | id]; cbn;
    try reflexivity.
  - destruct b; reflexivity.
  - destruct (negb (z =? 0)%Z); reflexivity.
  - destruct (negb (s =? "")); reflexivity.
  - destruct (props !! "response") as [r |] eqn:Hr; cbn; [| reflexivity].
    destruct (get_prop_opt (get_prop_opt (get_prop_opt r "data") "error")
                "details"); reflexivity.
Qed.

Lemma detail_matches_object detail :
  is_nullish detail = false ->
  detail_matches detail = Returned (names_violation detail).
Proof.
  unfold detail_matches, names_violation.
  destruct detail; cbn; intros H; try discriminate; reflexivity.
Qed.

Lemma detail_matches_nullish detail :
  is_nullish detail = true ->
  detail_matches detail = Threw (TypeError_read detail "reason").
Proof. destruct detail; cbn; intros H; try discriminate; reflexivity. Qed.

(* On entries none of which is null or undefined the scan returns, and says
   whether one of them carries the marker. *)
Lemma array_some_objects entries :
  Forall (fun d => is_nullish d = false) entries ->
  array_some detail_matches entries = Returned (existsb names_violation entries).
Proof.
  induction 1 as [| d ds Hd _ IH]; [reflexivity |].
  cbn. rewrite (detail_matches_object d Hd).
  destruct (names_violation d); [reflexivity | exact IH].
Qed.

(* A null or undefined entry reached by the scan makes it throw. *)
Lemma array_some_nullish pre d post :
  Forall (fun x => is_nullish x = false) pre ->
  existsb names_violation pre = false ->
  is_nullish d = true ->
  array_some detail_matches (pre ++ d :: post)
  = Threw (TypeError_read d "reason").
Proof.
  induction 1 as [| x xs Hx _ IH]; cbn; intros Hpre Hd.
  - rewrite (detail_matches_nullish d Hd). reflexivity.
  - rewrite (detail_matches_object x Hx).
    destruct (names_violation x); [discriminate |]. cbn in Hpre. auto.
Qed.

Lemma loadCodeAssist_result self req w :
  (loadCodeAssist rt cv self req w).1
  = match (requestPost rt self "loadCodeAssist" req JUndefined w).1 with
    | Returned v => Returned v
    | Threw e =>
        match isVpcScAffectedUser e with
        | Returned true => Returned (standard_tier cv)
        | Returned false => Threw e
        | Threw e' => Threw e'
        end
    end.
Proof.
  unfold loadCodeAssist, standard_tier. unmonad.
  destruct (requestPost rt self "loadCodeAssist" req JUndefined w)
    as [[v | e] w']; cbn; [reflexivity |].
  destruct (isVpcScAffectedUser e) as [[|] | e']; reflexivity.
Qed.

(* The fallback, for errors whose details hold no null or undefined
   entry. *)
Lemma loadCodeAssist_fallback self req w body e entries :
  JSON_stringify rt req = Returned body ->
  request (client self) (post_options self w "loadCodeAssist" body JUndefined)
  = Threw e ->
  details_array e = Some entries ->
  Forall (fun d => is_nullish d = false) entries ->
  (loadCodeAssist rt cv self req w).1
  = if existsb names_violation entries then Returned (standard_tier cv)
    else Threw e.
Proof.
  intros Hs Hr Hd Hok. rewrite loadCodeAssist_result.
  rewrite (requestPost_propagates _ _ _ _ _ _ _ Hs Hr).
  rewrite isVpcScAffectedUser_details, Hd, (array_some_objects _ Hok).
  destruct (existsb names_violation entries); reflexivity.
Qed.

Lemma loadCodeAssist_no_details self req w body e :
  JSON_stringify rt req = Returned body ->
  request (client self) (post_options self w "loadCodeAssist" body JUndefined)
  = Threw e ->
  details_array e = None ->
  (loadCodeAssist rt cv self req w).1 = Threw e.
Proof.
  intros Hs Hr Hd. rewrite loadCodeAssist_result.
  rewrite (requestPost_propagates _ _ _ _ _ _ _ Hs Hr).
  rewrite isVpcScAffectedUser_details, Hd. reflexivity.
Qed.

Lemma details_of_gaxios_error entries :
  details_array (gaxios_error (JArr entries)) = Some entries.
Proof. reflexivity. Qed.

(* The classifier on a transport error whose details hold a null or
   undefined entry with no marked entry before it. *)
Lemma classifier_throws_at_nullish pre d post :
  Forall (fun x => is_nullish x = false) pre ->
  existsb names_violation pre = false ->
  is_nullish d = true ->
  isVpcScAffectedUser (gaxios_error (JArr (pre ++ d :: post)))
  = Threw (TypeError_read d "reason").
Proof.
  intros Hpre Hnone Hd.
  rewrite isVpcScAffectedUser_details, details_of_gaxios_error.
  apply array_some_nullish; assumption.
Qed.

(** C10: the classifier is not total.  When the details array holds a null
    entry that the scan reaches, reading [detail.reason] throws a TypeError;
    this happens whatever follows the entry, also when a later entry
    carries the marker SECURITY_POLICY_VIOLATED. *)
Theorem isVpcScAffectedUser_null_detail (post : list JsValue) :
  isVpcScAffectedUser (gaxios_error (JArr (JNull :: post)))
  = Threw (TypeError_read JNull "reason").
Proof. apply (classifier_throws_at_nullish [] JNull post); constructor. Qed.

(** C1: when the transport fails [loadCodeAssist] with an error whose
    details start with a null entry, the caller receives neither the
    standard-tier object nor the original error: the TypeError raised inside
    the classifier takes its place. *)
Theorem loadCodeAssist_null_detail_masks_error self req w body post :
  JSON_stringify rt req = Returned body ->
  request (client self) (post_options self w "loadCodeAssist" body JUndefined)
  = Threw (gaxios_error (JArr (JNull :: post))) ->
  (loadCodeAssist rt cv self req w).1 = Threw (TypeError_read JNull "reason")
  ∧ TypeError_read JNull "reason" ≠ gaxios_error (JArr (JNull :: post)).
Proof.
  intros Hs Hr. split.
  - rewrite loadCodeAssist_result.
    rewrite (requestPost_propagates _ _ _ _ _ _ _ Hs Hr).
    pose proof (classifier_throws_at_nullish [] JNull post
                  (Forall_nil_2 _) eq_refl eq_refl) as Hc.
    cbn [app] in Hc. rewrite Hc. reflexivity.
  - unfold TypeError_read, new_Error, gaxios_error. intros H.
    injection H as Hcls _. discriminate Hcls.
Qed.

(** C9: [embedContent] fails with an Error for every input and never
    returns an embedding result. *)
Theorem embedContent_always_throws self req w :
  embedContent self req w = (Threw Error_noarg, w)
  ∧ ∀ v w', embedContent self req w ≠ (Returned v, w').
Proof. split; [reflexivity | intros v w' H; discriminate H]. Qed.

(** ** Stream decoder *)

Lemma data_line_not_blank line :
  startsWith "data: " line = true -> (line =? "") = false.
Proof. destruct line; [discriminate | reflexivity]. Qed.

Lemma feed_data buf line rest :
  startsWith "data: " line = true ->
  feed rt buf (line :: rest) = feed rt (buf ++ [trim (slice_from 6 line)]) rest.
Proof.
  intros H. cbn [feed]. rewrite (data_line_not_blank _ H), H. reflexivity.
Qed.

Lemma feed_block b : ∀ buf rest,
  Forall (fun l => startsWith "data: " l = true) b ->
  feed rt buf (b ++ rest) = feed rt (buf ++ fragments b) rest.
Proof.
  induction b as [| l b IH]; intros buf rest Hb.
  - cbn. rewrite app_nil_r. reflexivity.
  - inversion Hb as [| ? ? Hl Hb']; subst.
    change ((l :: b) ++ rest) with (l :: (b ++ rest)).
    rewrite (feed_data _ _ _ Hl), (IH _ _ Hb').
    cbn [fragments map]. rewrite <- app_assoc. reflexivity.
Qed.

Lemma feed_app l1 : ∀ buf l2,
  feed rt buf (l1 ++ l2)
  = match feed rt buf l1 with
    | (msgs, Reading b) =>
        let '(msgs2, p) := feed rt b l2 in (msgs ++ msgs2, p)
    | (msgs, Stopped e) => (msgs, Stopped e)
    end.
Proof.
  induction l1 as [| line l1 IH]; intros buf l2.
  - cbn. destruct (feed rt buf l2); reflexivity.
  - cbn [app feed]. destruct (line =? "").
    + destruct buf as [| b0 buf]; [apply IH |].
      destruct (JSON_parse rt _) as [chunk | e]; [| reflexivity].
      rewrite IH. destruct (feed rt [] l1) as [msgs [b | e]]; [| reflexivity].
      destruct (feed rt b l2); reflexivity.
    + destruct (startsWith "data: " line); [apply IH | reflexivity].
Qed.

Lemma ending_not_yielded fin p v : ending fin p ≠ Yielded v.
Proof. destruct p, fin; discriminate. Qed.

(* One run of the loop against its pure account: it parks at a yield with
   the first message, or it ends the generator. *)
Lemma decode_loop_feed self url fin lines : ∀ buf w,
  match feed rt buf lines with
  | (v :: msgs, p) =>
      ∃ b rest,
        decode_loop rt self url buf lines fin w
        = (Yielded v, GenSuspended b rest fin,
           (sessionLogger_log_opt rt self MODEL_RESPONSE
              (response_entry url v) w).2)
        ∧ feed rt [] rest = (msgs, p)
  | ([], p) =>
      decode_loop rt self url buf lines fin w = (ending fin p, GenDone, w)
  end.
Proof.
  induction lines as [| line rest IH]; intros buf w.
  - cbn. destruct fin; reflexivity.
  - cbn [feed decode_loop]. destruct (line =? "").
    + destruct buf as [| b0 buf]; [apply IH |].
      destruct (JSON_parse rt _) as [chunk | e]; [| reflexivity].
      destruct (feed rt [] rest) as [msgs p] eqn:Hf.
      exists (b0 :: buf), rest. split; [| exact Hf].
      unfold response_entry.
      destruct (sessionLogger_log_opt rt self MODEL_RESPONSE _ w); reflexivity.
    + destruct (startsWith "data: " line); [apply IH | reflexivity].
Qed.

Lemma gen_next_feed g w :
  match feed rt [] (pending_source g).1 with
  | (v :: msgs, p) =>
      ∃ g',
        gen_next rt g w
        = (Yielded v, g',
           (sessionLogger_log_opt rt (gen_self g) MODEL_RESPONSE
              (response_entry (gen_url g) v) w).2)
        ∧ gen_self g' = gen_self g ∧ gen_url g' = gen_url g
        ∧ (pending_source g').2 = (pending_source g).2
        ∧ feed rt [] (pending_source g').1 = (msgs, p)
  | ([], p) =>
      ∃ g',
        gen_next rt g w = (ending (pending_source g).2 p, g', w)
        ∧ gen_self g' = gen_self g ∧ gen_url g' = gen_url g
        ∧ gen_phase g' = GenDone
  end.
Proof.
  unfold gen_next, pending_source.
  destruct (gen_phase g) as [| b rest fin |] eqn:Hph.
  - destruct (data (gen_res g)) as [| | | | | | | lines fin |] eqn:Hd;
      try (cbn; exists (parked g GenDone); repeat split; reflexivity).
    cbn [fst snd].
    pose proof (decode_loop_feed (gen_self g) (gen_url g) fin lines [] w) as H.
    destruct (feed rt [] lines) as [[| v msgs] p].
    + rewrite H. exists (parked g GenDone). repeat split; reflexivity.
    + destruct H as (b & rest & -> & Hf).
      exists (parked g (GenSuspended b rest fin)). repeat split; assumption.
  - cbn [fst snd].
    pose proof (decode_loop_feed (gen_self g) (gen_url g) fin rest [] w) as H.
    destruct (feed rt [] rest) as [[| v msgs] p].
    + rewrite H. exists (parked g GenDone). repeat split; reflexivity.
    + destruct H as (b' & rest' & -> & Hf).
      exists (parked g (GenSuspended b' rest' fin)). repeat split; assumption.
  - cbn. exists g. repeat split; assumption.
Qed.

Lemma seen_nil_done n : seen n [] Done = replicate n Done.
Proof. destruct n; reflexivity. Qed.

Lemma pending_done g :
  gen_phase g = GenDone -> pending_source g = ([], None).
Proof. unfold pending_source. intros ->. reflexivity. Qed.

(* What [n] calls of [next()] return, read off the pure account. *)
Lemma nexts_results n : ∀ g w,
  results_of (nexts rt n g w)
  = seen n (feed rt [] (pending_source g).1).1
      (ending (pending_source g).2 (feed rt [] (pending_source g).1).2).
Proof.
  induction n as [| n IH]; intros g w; [reflexivity |].
  cbn [nexts]. pose proof (gen_next_feed g w) as H.
  destruct (feed rt [] (pending_source g).1) as [[| v msgs] p].
  - destruct H as (g' & -> & _ & _ & Hph).
    specialize (IH g' w). rewrite (pending_done _ Hph) in IH. cbn in IH.
    destruct (nexts rt n g' w) as [[rs g''] w''].
    unfold results_of in *. cbn in *. rewrite IH, seen_nil_done. reflexivity.
  - destruct H as (g' & -> & _ & _ & Hfin & Hf).
    match goal with
    | |- context [nexts rt n g' ?w1] => specialize (IH g' w1)
    end.
    rewrite Hf, Hfin in IH.
    match goal with
    | |- context [nexts rt n g' ?w1] =>
        destruct (nexts rt n g' w1) as [[rs g''] w'']
    end.
    unfold results_of in *. cbn in *. rewrite IH. reflexivity.
Qed.

(* The log calls that [n] calls of [next()] make: one per message. *)
Lemma nexts_world n : ∀ g w,
  world_of (nexts rt n g w)
  = foldl (fun w' v =>
             (sessionLogger_log_opt rt (gen_self g) MODEL_RESPONSE
                (response_entry (gen_url g) v) w').2)
      w (yielded (results_of (nexts rt n g w))).
Proof.
  induction n as [| n IH]; intros g w; [reflexivity |].
  cbn [nexts]. pose proof (gen_next_feed g w) as H.
  destruct (feed rt [] (pending_source g).1) as [[| v msgs] p].
  - destruct H as (g' & -> & Hs & Hu & _).
    specialize (IH g' w). rewrite Hs, Hu in IH.
    destruct (nexts rt n g' w) as [[rs g''] w''].
    unfold results_of, world_of in *. cbn in *.
    destruct (ending _ p) eqn:He;
      [exfalso; eapply ending_not_yielded; exact He | exact IH | exact IH].
  - destruct H as (g' & -> & Hs & Hu & _).
    match goal with
    | |- context [nexts rt n g' ?w1] => specialize (IH g' w1)
    end.
    rewrite Hs, Hu in IH.
    match goal with
    | |- context [nexts rt n g' ?w1] =>
        destruct (nexts rt n g' w1) as [[rs g''] w'']
    end.
    unfold results_of, world_of in *. cbn in *. exact IH.
Qed.

Lemma pending_decoder self url lines fin :
  pending_source (decoder self url lines fin) = (lines, fin).
Proof. reflexivity. Qed.

Lemma feed_framed blocks : ∀ vs,
  Forall (Forall (fun l => startsWith "data: " l = true)) blocks ->
  Forall2 (fun b v => JSON_parse rt (join NL (fragments b)) = Returned v)
    (List.filter nonempty blocks) vs ->
  feed rt [] (framed blocks) = (vs, Reading []).
Proof.
  induction blocks as [| b blocks IH]; intros vs Hpre Hparse.
  - cbn in Hparse. inversion Hparse. reflexivity.
  - inversion Hpre as [| ? ? Hb Hblocks]; subst.
    change (framed (b :: blocks)) with ((b ++ [""]) ++ framed blocks).
    rewrite <- app_assoc, (feed_block b _ _ Hb).
    destruct b as [| l b].
    + cbn in Hparse |- *. apply IH; assumption.
    + cbn [List.filter nonempty] in Hparse.
      inversion Hparse as [| ? v ? vs' Hv Hvs]; subst.
      cbn [app fragments map] in Hv |- *. cbn [feed String.eqb].
      rewrite Hv, (IH _ Hblocks Hvs). reflexivity.
Qed.

(** C2: when the lines are blocks of lines that begin with "data: ", each
    block closed by a blank line, the consumer receives one message for
    every block that has lines, in order, and then the end of the sequence;
    the message of a block is what [JSON.parse] returns for its fragments
    (each line without its first six characters, trimmed) joined by line
    feeds.  A block without lines, that is a blank line met with an empty
    buffer, adds no message and no error. *)
Theorem delimiter_framing self url (blocks : list (list string))
    (vs : list JsValue) w n :
  Forall (Forall (fun l => startsWith "data: " l = true)) blocks ->
  Forall2 (fun b v => JSON_parse rt (join NL (fragments b)) = Returned v)
    (List.filter nonempty blocks) vs ->
  results_of (nexts rt n (decoder self url (framed blocks) None) w)
  = seen n vs Done.
Proof.
  intros Hpre Hparse.
  rewrite nexts_results, pending_decoder. cbn [fst snd].
  rewrite (feed_framed _ _ Hpre Hparse). reflexivity.
Qed.

Lemma seen_complete msgs : ∀ msgs' e,
  (∀ v, e ≠ Yielded v) ->
  seen (S (List.length msgs)) msgs' e = map Yielded msgs ++ [Done] ->
  msgs' = msgs ∧ e = Done.
Proof.
  induction msgs as [| m msgs IH]; intros msgs' e He H.
  - destruct msgs' as [| v msgs']; cbn in H.
    + injection H as ->. split; reflexivity.
    + discriminate H.
  - destruct msgs' as [| v msgs'].
    + cbn in H. injection H as H _. exfalso. exact (He _ H).
    + change (Yielded v :: seen (S (List.length msgs)) msgs' e
              = Yielded m :: (map Yielded msgs ++ [Done])) in H.
      injection H as -> H. destruct (IH _ _ He H) as [-> ->].
      split; reflexivity.
Qed.

(* A consumer that saw all of [pre] decode tells that the loop was still
   reading at its end. *)
Lemma decoded_is_reading self url pre msgs w :
  results_of (nexts rt (S (List.length msgs)) (decoder self url pre None) w)
  = map Yielded msgs ++ [Done] ->
  ∃ b, feed rt [] pre = (msgs, Reading b).
Proof.
  rewrite nexts_results, pending_decoder. cbn [fst snd]. intros H.
  destruct (feed rt [] pre) as [msgs' p]. cbn [fst snd] in H.
  apply seen_complete in H; [| intros v; apply ending_not_yielded].
  destruct H as [-> He]. destruct p as [b | e]; [| discriminate He].
  exists b. reflexivity.
Qed.

(** C3: when the decoder, having decoded the lines before it into the
    messages [msgs], meets a line that is neither empty nor begins with
    "data: ", the consumer receives [msgs], then an Error whose message is
    "Unexpected line format in response: " followed by that line, and after
    it only the end of the sequence, whatever lines follow. *)
Theorem protocol_violation self url (pre : list string) (bad : string)
    (post : list string) fin (msgs : list JsValue) w0 w n :
  bad ≠ "" ->
  startsWith "data: " bad = false ->
  results_of (nexts rt (S (List.length msgs)) (decoder self url pre None) w0)
  = map Yielded msgs ++ [Done] ->
  results_of (nexts rt n (decoder self url (pre ++ bad :: post) fin) w)
  = seen n msgs
      (Thrown (new_Error "Error"
                 ("Unexpected line format in response: " +:+ bad))).
Proof.
  intros Hne Hpfx Hpre.
  destruct (decoded_is_reading _ _ _ _ _ Hpre) as [b Hb].
  rewrite nexts_results, pending_decoder. cbn [fst snd].
  rewrite feed_app, Hb. cbn [feed].
  apply String.eqb_neq in Hne. rewrite Hne, Hpfx. cbn [fst snd ending].
  rewrite app_nil_r. reflexivity.
Qed.

(** C4: data lines at the end of the stream that no blank line closes are
    dropped: with them the consumer receives what it receives without
    them, no message and no error more, and no log call is made for
    them. *)
Theorem trailing_block_discarded self url (pre tail : list string) w n :
  Forall (fun l => startsWith "data: " l = true) tail ->
  results_of (nexts rt n (decoder self url (pre ++ tail) None) w)
  = results_of (nexts rt n (decoder self url pre None) w)
  ∧ world_of (nexts rt n (decoder self url (pre ++ tail) None) w)
    = world_of (nexts rt n (decoder self url pre None) w).
Proof.
  intros Htail.
  assert (results_of (nexts rt n (decoder self url (pre ++ tail) None) w)
          = results_of (nexts rt n (decoder self url pre None) w)) as Hres.
  { rewrite !nexts_results, !pending_decoder. cbn [fst snd].
    rewrite feed_app. destruct (feed rt [] pre) as [msgs [b | e]];
      [| reflexivity].
    rewrite <- (app_nil_r tail), (feed_block tail _ _ Htail). cbn.
    rewrite app_nil_r. reflexivity. }
  split; [exact Hres |]. rewrite !nexts_world, Hres. reflexivity.
Qed.

Lemma count_responses_app a b :
  count_responses (a ++ b) = count_responses a + count_responses b.
Proof.
  unfold count_responses. rewrite List.filter_app, length_app. reflexivity.
Qed.

Lemma log_opt_calls self lg type d w :
  sessionLogger self = Some lg ->
  log_calls (sessionLogger_log_opt rt self type d w).2
  = log_calls w ++ [(type, d)].
Proof.
  intros H. unfold sessionLogger_log_opt. rewrite H. cbn.
  apply SessionLogger_log_calls.
Qed.

Lemma log_opt_absent self type d w :
  sessionLogger self = None ->
  sessionLogger_log_opt rt self type d w = (Returned tt, w).
Proof. intros H. unfold sessionLogger_log_opt. rewrite H. reflexivity. Qed.

Lemma responses_logged self lg url vs : ∀ w,
  sessionLogger self = Some lg ->
  count_responses
    (log_calls
       (foldl (fun w' v =>
                 (sessionLogger_log_opt rt self MODEL_RESPONSE
                    (response_entry url v) w').2) w vs))
  = count_responses (log_calls w) + List.length vs.
Proof.
  induction vs as [| v vs IH]; intros w H.
  - cbn. lia.
  - cbn [foldl].
    rewrite (IH _ H), (log_opt_calls _ _ _ _ _ H), count_responses_app.
    cbn. lia.
Qed.

(** C8: in a streaming call made with a session logger, a message reaches
    the consumer only after the log call for it (type model_response, the
    message as the response) has been made: the call is the last one on
    record when [next()] hands the message over.  So after any number of
    [next()] calls the response log calls made by the generator are at
    least as many as the messages yielded so far. *)
Theorem response_logged_before_yield g lg w :
  sessionLogger (gen_self g) = Some lg ->
  (∀ v g' w',
     gen_next rt g w = (Yielded v, g', w') ->
     log_calls w'
     = log_calls w ++ [(MODEL_RESPONSE, response_entry (gen_url g) v)])
  ∧ (∀ n,
       (count_responses (log_calls w)
        + List.length (yielded (results_of (nexts rt n g w)))
        ≤ count_responses (log_calls (world_of (nexts rt n g w))))%nat).
Proof.
  intros Hlg. split.
  - intros v g' w' Hnext. pose proof (gen_next_feed g w) as H.
    destruct (feed rt [] (pending_source g).1) as [[| v0 msgs] p].
    + destruct H as (g0 & H & _). rewrite H in Hnext.
      injection Hnext as He _ _. exfalso. exact (ending_not_yielded _ _ _ He).
    + destruct H as (g0 & H & _). rewrite H in Hnext.
      injection Hnext as -> _ <-. apply (log_opt_calls _ _ _ _ _ Hlg).
  - intros n. rewrite nexts_world, (responses_logged _ _ _ _ _ Hlg). lia.
Qed.

(* Without a session logger no log call is made. *)
Lemma no_logger_no_calls g w n :
  sessionLogger (gen_self g) = None ->
  world_of (nexts rt n g w) = w.
Proof.
  intros H. rewrite nexts_world.
  induction (yielded (results_of (nexts rt n g w))) as [| v vs IH] in w |- *;
    [reflexivity |].
  cbn [foldl]. rewrite (log_opt_absent _ _ _ _ H). apply IH.
Qed.

(** ** Cancellation *)

(* What the consumer receives does not depend on the world the generator
   runs in. *)
Lemma nexts_results_any_world n g w1 w2 :
  results_of (nexts rt n g w1) = results_of (nexts rt n g w2).
Proof. rewrite !nexts_results. reflexivity. Qed.

Lemma length_nexts n : ∀ g w, List.length (results_of (nexts rt n g w)) = n.
Proof.
  induction n as [| n IH]; intros g w; [reflexivity |].
  cbn [nexts]. destruct (gen_next rt g w) as [[r g'] w'].
  specialize (IH g' w'). destruct (nexts rt n g' w') as [[rs g''] w''].
  unfold results_of in *. cbn in *. rewrite IH. reflexivity.
Qed.

Lemma gen_next_keeps g w :
  gen_self (gen_next rt g w).1.2 = gen_self g
  ∧ gen_url (gen_next rt g w).1.2 = gen_url g.
Proof.
  unfold gen_next. destruct (gen_phase g) as [| b rest fin |].
  - destruct (data (gen_res g)); try (split; reflexivity).
    destruct (decode_loop rt (gen_self g) (gen_url g) [] lines fin w)
      as [[r ph] w']. split; reflexivity.
  - destruct (decode_loop rt (gen_self g) (gen_url g) [] rest fin w)
      as [[r ph] w']. split; reflexivity.
  - split; reflexivity.
Qed.

(* A generator that has yielded is parked at the [yield]. *)
Lemma yielded_is_reading g w v g' w' :
  gen_next rt g w = (Yielded v, g', w') -> reading g' = true.
Proof.
  intros H. pose proof (gen_next_feed g w) as Hf.
  unfold gen_next in H, Hf. unfold reading.
  destruct (gen_phase g) as [| b rest fin |] eqn:Hph.
  - destruct (data (gen_res g)) as [| | | | | | | lines fin |] eqn:Hd;
      try discriminate H.
    pose proof (decode_loop_feed (gen_self g) (gen_url g) fin lines [] w)
      as Hl.
    destruct (feed rt [] lines) as [[| v0 msgs] p].
    + rewrite Hl in H. injection H as He _ _.
      exfalso. exact (ending_not_yielded _ _ _ He).
    + destruct Hl as (b & rest & Hl & _). rewrite Hl in H.
      injection H as _ <- _. reflexivity.
  - pose proof (decode_loop_feed (gen_self g) (gen_url g) fin rest [] w)
      as Hl.
    destruct (feed rt [] rest) as [[| v0 msgs] p].
    + rewrite Hl in H. injection H as He _ _.
      exfalso. exact (ending_not_yielded _ _ _ He).
    + destruct Hl as (b' & rest' & Hl & _). rewrite Hl in H.
      injection H as _ <- _. reflexivity.
  - discriminate H.
Qed.

Lemma pending_redirect delivered after g :
  reading g = true ->
  pending_source (redirect delivered after g) = (delivered, source_end after).
Proof.
  unfold reading, redirect, pending_source.
  destruct (gen_phase g) as [| b rest fin |] eqn:Hph; intros H.
  - destruct (data (gen_res g)); try discriminate H. reflexivity.
  - reflexivity.
  - discriminate H.
Qed.

(* A stream on which a [next()] is waiting stays that way. *)
Lemma hung_stays n : ∀ s w,
  stream_hung s = true ->
  run_consumer rt (replicate n Pull) s w = (replicate n NeverSettles, s, w).
Proof.
  induction n as [| n IH]; intros s w H; [reflexivity |].
  cbn [replicate run_consumer]. unfold stream_next. rewrite H.
  rewrite (IH s w H). reflexivity.
Qed.

(* Calls of [next()] on a stream against calls on its generator. *)
Lemma pulls_on_stream n : ∀ s w,
  stream_hung s = false ->
  outcomes_of (run_consumer rt (replicate n Pull) s w)
  = (if stream_stalls s then stalled else map Settled)
      (results_of (nexts rt n (stream_gen s) w)).
Proof.
  induction n as [| n IH]; intros s w H.
  - cbn. destruct (stream_stalls s); reflexivity.
  - cbn [replicate run_consumer nexts]. unfold stream_next. rewrite H.
    destruct (gen_next rt (stream_gen s) w) as [[r g'] w'].
    pose proof (length_nexts n g' w') as Hlen.
    destruct r as [v | | e].
    + specialize (IH (mkStream g' (stream_signal s) (stream_stalls s) false)
                    w' eq_refl).
      cbn [stream_stalls stream_gen] in IH.
      destruct (run_consumer rt (replicate n Pull) _ w') as [[os s''] w''].
      destruct (nexts rt n g' w') as [[rs g''] w3].
      unfold outcomes_of, results_of in *. cbn in *. rewrite IH.
      destruct (stream_stalls s); reflexivity.
    + destruct (stream_stalls s).
      * rewrite (hung_stays n (mkStream g' (stream_signal s) true true) w'
                   eq_refl).
        destruct (nexts rt n g' w') as [[rs g''] w3].
        unfold outcomes_of, results_of in *. cbn in *. rewrite Hlen.
        reflexivity.
      * specialize (IH (mkStream g' (stream_signal s) false false) w'
                      eq_refl).
        cbn [stream_stalls stream_gen] in IH.
        destruct (run_consumer rt (replicate n Pull) _ w') as [[os s''] w''].
        destruct (nexts rt n g' w') as [[rs g''] w3].
        unfold outcomes_of, results_of in *. cbn in *. rewrite IH.
        reflexivity.
    + specialize (IH (mkStream g' (stream_signal s) false false) w' eq_refl).
      cbn [stream_stalls stream_gen] in IH.
      destruct (run_consumer rt (replicate n Pull) _ w') as [[os s''] w''].
      destruct (nexts rt n g' w') as [[rs g''] w3].
      unfold outcomes_of, results_of in *. cbn in *. rewrite IH.
      destruct (stream_stalls s); reflexivity.
Qed.

(* The messages before the firing, then the decoding of what the line
   source delivers after it. *)
Lemma fire_after_messages delivered after n msgs : ∀ g w id,
  reading g = true ->
  results_of (nexts rt (List.length msgs) g w) = map Yielded msgs ->
  outcomes_of
    (run_consumer rt
       (replicate (List.length msgs) Pull
        ++ Fire delivered after :: replicate n Pull)
       (mkStream g id false false) w)
  = map (fun v => Settled (Yielded v)) msgs
    ++ after_firing after
         (results_of
            (nexts rt n
               (decoder (gen_self g) (gen_url g) delivered
                  (source_end after)) w)).
Proof.
  induction msgs as [| v msgs IH]; intros g w id Hread Hres.
  - cbn [List.length replicate app run_consumer map].
    unfold stream_fire. cbn [stream_hung stream_gen stream_signal].
    rewrite Hread, pulls_on_stream by reflexivity.
    cbn [stream_stalls stream_gen]. unfold after_firing.
    rewrite !nexts_results, (pending_redirect _ _ _ Hread), pending_decoder.
    destruct (is_stalls after); reflexivity.
  - cbn [List.length replicate app run_consumer map nexts] in *.
    unfold stream_next. cbn [stream_hung stream_gen stream_signal
                               stream_stalls].
    pose proof (gen_next_keeps g w) as [Hself Hurl].
    destruct (gen_next rt g w) as [[r g'] w'] eqn:Hnext.
    cbn [fst snd] in Hself, Hurl.
    assert (r = Yielded v
            ∧ results_of (nexts rt (List.length msgs) g' w')
              = map Yielded msgs) as [-> Hrest].
    { destruct (nexts rt (List.length msgs) g' w') as [[rs g''] w''].
      unfold results_of in *. cbn in *. injection Hres as -> ->.
      split; reflexivity. }
    specialize (IH g' w' id (yielded_is_reading _ _ _ _ _ Hnext) Hrest).
    rewrite Hself, Hurl, (nexts_results_any_world n _ w' w) in IH.
    destruct (run_consumer rt _ (mkStream g' id false false) w')
      as [[os s''] w''].
    unfold outcomes_of in *. cbn in *. rewrite IH. reflexivity.
Qed.

Lemma stalled_replicate_done k :
  stalled (replicate k Done) = replicate k NeverSettles.
Proof.
  destruct k as [| k]; [reflexivity |]. cbn. rewrite length_replicate.
  reflexivity.
Qed.

(** C5, as the code has it: the decoder makes no cancellation check; the
    signal goes to the transport only.  When the signal fires after the
    messages [msgs] have been yielded, those stay with the consumer, and
    the [next()] calls after the firing return what decoding the lines
    that the line source delivers after the firing returns: the messages
    of the frames among them, then the end, the error of the source, or
    nothing at all when the source never ends.  With no line delivered
    after the firing there is no further message. *)
Theorem cancellation_follows_line_source self url (lines : list string) fin
    (id : positive) (msgs : list JsValue) (delivered : list string)
    (after : SourceEnd) w n :
  results_of
    (nexts rt (List.length msgs) (decoder self url lines fin) w)
  = map Yielded msgs ->
  outcomes_of
    (run_consumer rt
       (replicate (List.length msgs) Pull
        ++ Fire delivered after :: replicate n Pull)
       (mkStream (decoder self url lines fin) id false false) w)
  = map (fun v => Settled (Yielded v)) msgs
    ++ after_firing after
         (results_of
            (nexts rt n (decoder self url delivered (source_end after)) w))
  ∧ (delivered = [] ->
     Forall (fun o => ∀ v, o ≠ Settled (Yielded v))
       (drop (List.length msgs)
          (outcomes_of
             (run_consumer rt
                (replicate (List.length msgs) Pull
                 ++ Fire delivered after :: replicate n Pull)
                (mkStream (decoder self url lines fin) id false false) w)))).
Proof.
  intros Hres.
  pose proof (fire_after_messages delivered after n msgs
                (decoder self url lines fin) w id eq_refl Hres) as Hrun.
  split; [exact Hrun |].
  intros ->. cbn [gen_self gen_url decoder] in Hrun. rewrite Hrun.
  rewrite drop_app_length' by (rewrite length_map; reflexivity).
  rewrite nexts_results, pending_decoder. cbn [fst snd feed ending].
  destruct n as [| n]; [destruct after; constructor |].
  cbn [seen]. unfold after_firing.
  assert (Forall (fun o => ∀ v, o ≠ Settled (Yielded v))
            (map Settled (replicate n Done))) as Hdone.
  { apply Forall_forall. intros o Ho v ->.
    apply list_elem_of_fmap in Ho as (r & Hr & Hin).
    apply elem_of_replicate in Hin as [-> _]. discriminate Hr. }
  destruct after as [| e |]; cbn [is_stalls source_end stalled map].
  - constructor; [intros v H; discriminate H | exact Hdone].
  - constructor; [intros v H; discriminate H | exact Hdone].
  - rewrite length_replicate. apply Forall_forall. intros o Ho v ->.
    apply elem_of_replicate in Ho as [Ho _]. discriminate Ho.
Qed.

End Calls.

(** ** Logger isolation *)

(* The call sites above, with the object of the class for a logger, are the
   call sites of the dispatcher as embedded before. *)
Lemma log_call_site_class rt self type d w :
  log_call_site (class_logger rt self) type d w
  = sessionLogger_log_opt rt self type d w.
Proof.
  unfold log_call_site, class_logger, sessionLogger_log_opt.
  destruct (sessionLogger self) as [lg |]; [| reflexivity].
  cbn. unfold SessionLogger_object.
  pose proof (SessionLogger_log_fulfils rt lg type d w) as H.
  destruct (SessionLogger_log rt lg type d w) as [c w']. reflexivity.
Qed.

Lemma requestPost_with_class rt self method req signal w :
  requestPost_with (class_logger rt self) rt self method req signal w
  = requestPost rt self method req signal w.
Proof.
  unfold requestPost_with, requestPost. unmonad.
  rewrite !log_call_site_class.
  destruct (sessionLogger_log_opt rt self MODEL_REQUEST _ w) as [[[] | e] w1];
    [| reflexivity].
  destruct (JSON_stringify rt req); [| reflexivity].
  destruct (request (client self) _); [| reflexivity].
  rewrite log_call_site_class. reflexivity.
Qed.

Lemma requestGet_with_class rt self method signal w :
  requestGet_with (class_logger rt self) rt self method signal w
  = requestGet rt self method signal w.
Proof.
  unfold requestGet_with, requestGet. unmonad.
  rewrite !log_call_site_class.
  destruct (sessionLogger_log_opt rt self MODEL_REQUEST _ w) as [[[] | e] w1];
    [| reflexivity].
  destruct (request (client self) _); [| reflexivity].
  rewrite log_call_site_class. reflexivity.
Qed.

Lemma requestStreamingPost_with_class rt self method req signal w :
  requestStreamingPost_with (class_logger rt self) rt self method req signal w
  = requestStreamingPost rt self method req signal w.
Proof.
  unfold requestStreamingPost_with, requestStreamingPost. unmonad.
  rewrite !log_call_site_class. reflexivity.
Qed.

Lemma decode_loop_with_class rt self url fin lines : ∀ buf w,
  decode_loop_with (class_logger rt self) rt url buf lines fin w
  = decode_loop rt self url buf lines fin w.
Proof.
  induction lines as [| line rest IH]; intros buf w; [reflexivity |].
  cbn [decode_loop_with decode_loop]. destruct (line =? "").
  - destruct buf as [| b0 buf]; [apply IH |].
    destruct (JSON_parse rt _) as [chunk | e]; [| reflexivity].
    rewrite log_call_site_class.
    pose proof (sessionLogger_log_opt_returns rt self MODEL_RESPONSE
      (obj {[ "url" := JStr url; "method" := JStr "POST";
              "response" := chunk ]}) w) as H.
    destruct (sessionLogger_log_opt rt self MODEL_RESPONSE _ w) as [c w'].
    cbn in H. subst c. reflexivity.
  - destruct (startsWith "data: " line); [apply IH | reflexivity].
Qed.

Lemma gen_next_with_class rt g w :
  gen_next_with (class_logger rt (gen_self g)) rt g w = gen_next rt g w.
Proof.
  unfold gen_next_with, gen_next.
  destruct (gen_phase g); [| rewrite decode_loop_with_class; reflexivity
                           | reflexivity].
  destruct (data (gen_res g)); try reflexivity.
  rewrite decode_loop_with_class. reflexivity.
Qed.

(* An object of the class never throws into its caller, whatever the file
   system and the serialization do. *)
Lemma class_logger_returns_promise rt self :
  returns_promise (class_logger rt self).
Proof.
  intros log type d w H. unfold class_logger in H.
  destruct (sessionLogger self) as [lg |]; [| discriminate H].
  injection H as <-. unfold SessionLogger_object.
  destruct (SessionLogger_log rt lg type d w) as [c w']. exists c.
  reflexivity.
Qed.

Lemma log_call_site_returns logger type d w :
  returns_promise logger ->
  (log_call_site logger type d w).1 = Returned tt.
Proof.
  intros H. unfold log_call_site. destruct logger as [log |]; [| reflexivity].
  destruct (H log type d w eq_refl) as [c Hc].
  destruct (log type d w) as [[e | c'] w']; [discriminate Hc | reflexivity].
Qed.

Lemma requestPost_with_result logger rt self method req signal w :
  returns_promise logger ->
  (requestPost_with logger rt self method req signal w).1
  = (body ← JSON_stringify rt req;
     res ← request (client self) (post_options self w method body signal);
     mret (data res)).
Proof.
  intros Hq. unfold requestPost_with, post_options. unmonad.
  pose proof (log_call_site_returns logger MODEL_REQUEST
    (obj {[ "url" := JStr (getMethodUrl (env w) method);
            "method" := JStr "POST"; "body" := req ]}) w Hq) as H1.
  destruct (log_call_site logger MODEL_REQUEST _ w) as [c1 w1].
  cbn in H1. subst c1.
  destruct (JSON_stringify rt req) as [body |]; [| reflexivity].
  destruct (request (client self) _) as [res |]; [| reflexivity].
  pose proof (log_call_site_returns logger MODEL_RESPONSE
    (obj {[ "url" := JStr (getMethodUrl (env w) method);
            "method" := JStr "POST"; "response" := data res ]}) w1 Hq) as H2.
  destruct (log_call_site logger MODEL_RESPONSE _ w1) as [c2 w2].
  cbn in H2. subst c2. reflexivity.
Qed.

Lemma requestGet_with_result logger rt self method signal w :
  returns_promise logger ->
  (requestGet_with logger rt self method signal w).1
  = (res ← request (client self) (get_options self w method signal);
     mret (data res)).
Proof.
  intros Hq. unfold requestGet_with, get_options. unmonad.
  pose proof (log_call_site_returns logger MODEL_REQUEST
    (obj {[ "url" := JStr (getMethodUrl (env w) method);
            "method" := JStr "GET" ]}) w Hq) as H1.
  destruct (log_call_site logger MODEL_REQUEST _ w) as [c1 w1].
  cbn in H1. subst c1.
  destruct (request (client self) _) as [res |]; [| reflexivity].
  pose proof (log_call_site_returns logger MODEL_RESPONSE
    (obj {[ "url" := JStr (getMethodUrl (env w) method);
            "method" := JStr "GET"; "response" := data res ]}) w1 Hq) as H2.
  destruct (log_call_site logger MODEL_RESPONSE _ w1) as [c2 w2].
  cbn in H2. subst c2. reflexivity.
Qed.

Lemma requestStreamingPost_with_result logger rt self method req signal w :
  returns_promise logger ->
  (requestStreamingPost_with logger rt self method req signal w).1
  = (body ← JSON_stringify rt req;
     res ← request (client self) (stream_options self w method body signal);
     mret (mkGenerator self (getMethodUrl (env w) method) res GenStart)).
Proof.
  intros Hq. unfold requestStreamingPost_with, stream_options. unmonad.
  pose proof (log_call_site_returns logger MODEL_REQUEST
    (obj {[ "url" := JStr (getMethodUrl (env w) method);
            "method" := JStr "POST";
            "params" := obj {[ "alt" := JStr "sse" ]}; "body" := req ]}) w
    Hq) as H1.
  destruct (log_call_site logger MODEL_REQUEST _ w) as [c1 w1].
  cbn in H1. subst c1.
  destruct (JSON_stringify rt req) as [body |]; [| reflexivity].
  destruct (request (client self) _) as [res |]; reflexivity.
Qed.

(* With loggers that return promises the loop takes the same course,
   whatever the loggers do to the world. *)
Lemma decode_loop_with_any logger1 logger2 rt url fin lines : ∀ buf w1 w2,
  returns_promise logger1 -> returns_promise logger2 ->
  (decode_loop_with logger1 rt url buf lines fin w1).1
  = (decode_loop_with logger2 rt url buf lines fin w2).1.
Proof.
  induction lines as [| line rest IH]; intros buf w1 w2 H1 H2.
  - cbn. destruct fin; reflexivity.
  - cbn [decode_loop_with]. destruct (line =? "").
    + destruct buf as [| b0 buf]; [apply IH; assumption |].
      destruct (JSON_parse rt _) as [chunk | e]; [| reflexivity].
      pose proof (log_call_site_returns logger1 MODEL_RESPONSE
        (obj {[ "url" := JStr url; "method" := JStr "POST";
                "response" := chunk ]}) w1 H1) as Hc1.
      pose proof (log_call_site_returns logger2 MODEL_RESPONSE
        (obj {[ "url" := JStr url; "method" := JStr "POST";
                "response" := chunk ]}) w2 H2) as Hc2.
      destruct (log_call_site logger1 MODEL_RESPONSE _ w1) as [c1 w1'].
      destruct (log_call_site logger2 MODEL_RESPONSE _ w2) as [c2 w2'].
      cbn in Hc1, Hc2. subst c1 c2. reflexivity.
    + destruct (startsWith "data: " line);
        [apply IH; assumption | reflexivity].
Qed.

Lemma gen_next_with_any logger1 logger2 rt g w1 w2 :
  returns_promise logger1 -> returns_promise logger2 ->
  (gen_next_with logger1 rt g w1).1 = (gen_next_with logger2 rt g w2).1.
Proof.
  intros H1 H2. unfold gen_next_with.
  destruct (gen_phase g) as [| b rest fin |]; [| | reflexivity].
  - destruct (data (gen_res g)) as [| | | | | | | lines fin |];
      try reflexivity.
    pose proof (decode_loop_with_any logger1 logger2 rt (gen_url g) fin lines
                  [] w1 w2 H1 H2) as H.
    destruct (decode_loop_with logger1 rt (gen_url g) [] lines fin w1)
      as [[r1 ph1] w1'].
    destruct (decode_loop_with logger2 rt (gen_url g) [] lines fin w2)
      as [[r2 ph2] w2'].
    cbn in H. injection H as -> ->. reflexivity.
  - pose proof (decode_loop_with_any logger1 logger2 rt (gen_url g) fin rest
                  [] w1 w2 H1 H2) as H.
    destruct (decode_loop_with logger1 rt (gen_url g) [] rest fin w1)
      as [[r1 ph1] w1'].
    destruct (decode_loop_with logger2 rt (gen_url g) [] rest fin w2)
      as [[r2 ph2] w2'].
    cbn in H. injection H as -> ->. reflexivity.
Qed.

Lemma nexts_with_any logger1 logger2 rt n : ∀ g w1 w2,
  returns_promise logger1 -> returns_promise logger2 ->
  results_of (nexts_with logger1 rt n g w1)
  = results_of (nexts_with logger2 rt n g w2).
Proof.
  induction n as [| n IH]; intros g w1 w2 H1 H2; [reflexivity |].
  cbn [nexts_with].
  pose proof (gen_next_with_any logger1 logger2 rt g w1 w2 H1 H2) as H.
  destruct (gen_next_with logger1 rt g w1) as [[r1 g1] w1'].
  destruct (gen_next_with logger2 rt g w2) as [[r2 g2] w2'].
  cbn in H. injection H as -> ->.
  specialize (IH g2 w1' w2' H1 H2).
  destruct (nexts_with logger1 rt n g2 w1') as [[rs1 g1'] w1''].
  destruct (nexts_with logger2 rt n g2 w2') as [[rs2 g2'] w2''].
  unfold results_of in *. cbn in *. rewrite IH. reflexivity.
Qed.

(** C7, as the code has it: a unary or streaming call gives its caller the
    same result with any two loggers whose [log] does not throw into its
    caller: with no logger, with a logger whose promise fulfils, and with
    one whose promise rejects, as the promise is dropped at the call site.
    An object of the class is such a logger whatever fails inside its
    [log]. *)
Theorem logger_isolation rt self method req signal w n
    (logger1 logger2 : option LoggerObject) :
  returns_promise logger1 ->
  returns_promise logger2 ->
  (requestPost_with logger1 rt self method req signal w).1
  = (requestPost_with logger2 rt self method req signal w).1
  ∧ (requestGet_with logger1 rt self method signal w).1
    = (requestGet_with logger2 rt self method signal w).1
  ∧ stream_outcome_with logger1 rt self method req signal n w
    = stream_outcome_with logger2 rt self method req signal n w.
Proof.
  intros H1 H2. split; [| split].
  - rewrite !requestPost_with_result by assumption. reflexivity.
  - rewrite !requestGet_with_result by assumption. reflexivity.
  - unfold stream_outcome_with.
    pose proof (requestStreamingPost_with_result logger1 rt self method req
                  signal w H1) as Hr1.
    pose proof (requestStreamingPost_with_result logger2 rt self method req
                  signal w H2) as Hr2.
    destruct (requestStreamingPost_with logger1 rt self method req signal w)
      as [c1 w1].
    destruct (requestStreamingPost_with logger2 rt self method req signal w)
      as [c2 w2].
    cbn [fst] in Hr1, Hr2. subst c1 c2.
    destruct (JSON_stringify rt req) as [body |]; [| reflexivity]. cbn.
    destruct (request (client self) _) as [res |]; [| reflexivity]. cbn.
    f_equal. apply nexts_with_any; assumption.
Qed.

(** ** The statements at work on the sample platform *)

Module Runs.
Import Sample.

Definition quiet : CodeAssistServer := server (client_answering JNull) None.

Definition logging : CodeAssistServer :=
  server (client_answering JNull) (Some logger).

(* Two frames, as the transport of a streaming call delivers them. *)
Definition two_frames : JsValue :=
  JStream ["data: 1"; ""; "data: 2"; ""] None.

Definition null_detail_error : JsValue := gaxios_error (JArr [JNull]).

(* What the transport fails a response stream with once the signal of its
   request has fired. *)
Definition abort_error : JsValue :=
  new_Error "AbortError" "The user aborted a request.".

Definition answering (v : JsValue) : CodeAssistServer :=
  server (client_answering v) None.

Definition disk_full : JsValue :=
  new_Error "Error" "ENOSPC: no space left on device".

(* A logger object whose [log] throws into its caller. *)
Definition throwing_logger : LoggerObject :=
  fun _ _ w => (LogThrows disk_full, w).

(* A logger object whose [log] returns a promise that rejects. *)
Definition rejecting_logger : LoggerObject :=
  fun _ _ w => (LogReturns (Threw disk_full), w).

End Runs.

Lemma loadCodeAssist_null_detail_masks_error_witness :
  (loadCodeAssist Sample.runtime Sample.converters
     (Sample.server (Sample.client_failing Runs.null_detail_error) None)
     (obj ∅) Sample.world).1
  = Threw (TypeError_read JNull "reason")
  ∧ TypeError_read JNull "reason" ≠ Runs.null_detail_error.
Proof.
  apply (loadCodeAssist_null_detail_masks_error Sample.runtime
           Sample.converters
           (Sample.server (Sample.client_failing Runs.null_detail_error) None)
           (obj ∅) Sample.world "{}" []); reflexivity.
Defined.

Lemma delimiter_framing_witness :
  results_of
    (nexts Sample.runtime 4
       (decoder Runs.quiet "u"
          (framed [["data: 1"]; []; ["data:  [2,"; "data: 3]  "]]) None)
       Sample.world)
  = [Yielded (JNum 1); Yielded (JArr [JNum 2; JNum 3]); Done; Done].
Proof.
  apply (delimiter_framing Sample.runtime Runs.quiet "u"
           [["data: 1"]; []; ["data:  [2,"; "data: 3]  "]]
           [JNum 1; JArr [JNum 2; JNum 3]] Sample.world 4).
  - repeat constructor.
  - repeat constructor.
Defined.

Lemma protocol_violation_witness :
  results_of
    (nexts Sample.runtime 4
       (decoder Runs.quiet "u"
          (["data: 1"; ""] ++ "oops" :: ["data: 2"; ""]) None)
       Sample.world)
  = [Yielded (JNum 1);
     Thrown (new_Error "Error" "Unexpected line format in response: oops");
     Done; Done].
Proof.
  apply (protocol_violation Sample.runtime Runs.quiet "u" ["data: 1"; ""]
           "oops" ["data: 2"; ""] None [JNum 1] Sample.world Sample.world 4).
  - discriminate.
  - reflexivity.
  - reflexivity.
Defined.

Lemma trailing_block_discarded_witness :
  results_of
    (nexts Sample.runtime 3
       (decoder Runs.quiet "u" (["data: 1"; ""] ++ ["data: 2"; "data: 3"])
          None)
       Sample.world)
  = results_of
      (nexts Sample.runtime 3 (decoder Runs.quiet "u" ["data: 1"; ""] None)
         Sample.world)
  ∧ world_of
      (nexts Sample.runtime 3
         (decoder Runs.quiet "u" (["data: 1"; ""] ++ ["data: 2"; "data: 3"])
            None)
         Sample.world)
    = world_of
        (nexts Sample.runtime 3 (decoder Runs.quiet "u" ["data: 1"; ""] None)
           Sample.world).
Proof.
  apply (trailing_block_discarded Sample.runtime Runs.quiet "u"
           ["data: 1"; ""] ["data: 2"; "data: 3"] Sample.world 3).
  repeat constructor.
Defined.

Lemma response_logged_before_yield_witness :
  (∀ v g' w',
     gen_next Sample.runtime (decoder Runs.logging "u" ["data: 1"; ""] None)
       Sample.world
     = (Yielded v, g', w') ->
     log_calls w'
     = log_calls Sample.world ++ [(MODEL_RESPONSE, response_entry "u" v)])
  ∧ (∀ n,
       (count_responses (log_calls Sample.world)
        + List.length
            (yielded
               (results_of
                  (nexts Sample.runtime n
                     (decoder Runs.logging "u" ["data: 1"; ""] None)
                     Sample.world)))
        ≤ count_responses
            (log_calls
               (world_of
                  (nexts Sample.runtime n
                     (decoder Runs.logging "u" ["data: 1"; ""] None)
                     Sample.world))))%nat).
Proof.
  apply (response_logged_before_yield Sample.runtime
           (decoder Runs.logging "u" ["data: 1"; ""] None) Sample.logger
           Sample.world).
  reflexivity.
Defined.

Lemma cancellation_follows_line_source_witness :
  outcomes_of
    (run_consumer Sample.runtime
       [Pull; Fire [] (Fails Runs.abort_error); Pull; Pull]
       (mkStream
          (decoder Runs.quiet "u" ["data: 1"; ""; "data: 2"; ""] None)
          1 false false)
       Sample.world)
  = [Settled (Yielded (JNum 1)); Settled (Thrown Runs.abort_error);
     Settled Done]
  ∧ Forall (fun o => ∀ v, o ≠ Settled (Yielded v))
      (drop 1
         (outcomes_of
            (run_consumer Sample.runtime
               [Pull; Fire [] (Fails Runs.abort_error); Pull; Pull]
               (mkStream
                  (decoder Runs.quiet "u" ["data: 1"; ""; "data: 2"; ""]
                     None)
                  1 false false)
               Sample.world))).
Proof.
  destruct (cancellation_follows_line_source Sample.runtime Runs.quiet "u"
              ["data: 1"; ""; "data: 2"; ""] None 1 [JNum 1] []
              (Fails Runs.abort_error) Sample.world 2 eq_refl) as [H1 H2].
  split; [exact H1 | exact (H2 eq_refl)].
Defined.

(** C5, as the specification has it, fails: a streaming call is made with
    the signal at address 1 and answered with a stream of two frames; the
    consumer takes the first message and fires the signal; the line source
    still delivers the two lines it had received and then fails with the
    abort error; the next [next()] produces the second message, and only
    the one after it throws. *)
Lemma cancellation_does_not_stop_decoder :
  ∃ g w1,
    requestStreamingPost Sample.runtime
      (Sample.server (Sample.client_answering Runs.two_frames) None)
      "streamGenerateContent" (obj ∅) (JSignal 1) Sample.world
    = (Returned g, w1)
    ∧ outcomes_of
        (run_consumer Sample.runtime [Pull] (mkStream g 1 false false) w1)
      = [Settled (Yielded (JNum 1))]
    ∧ 1%positive
      ∈ aborted
          (run_consumer Sample.runtime
             [Pull; Fire ["data: 2"; ""] (Fails Runs.abort_error)]
             (mkStream g 1 false false) w1).2
    ∧ outcomes_of
        (run_consumer Sample.runtime
           [Pull; Fire ["data: 2"; ""] (Fails Runs.abort_error); Pull; Pull]
           (mkStream g 1 false false) w1)
      = [Settled (Yielded (JNum 1)); Settled (Yielded (JNum 2));
         Settled (Thrown Runs.abort_error)].
Proof.
  eexists. eexists. split; [reflexivity |].
  split; [reflexivity |]. split; [| reflexivity].
  cbn. set_solver.
Qed.

Lemma logger_isolation_witness :
  (requestPost_with (Some Runs.rejecting_logger) Sample.runtime
     (Runs.answering (JNum 7)) "countTokens" (obj ∅) JUndefined
     Sample.world).1
  = (requestPost_with
       (Some (SessionLogger_object Sample.runtime Sample.logger))
       Sample.runtime (Runs.answering (JNum 7)) "countTokens" (obj ∅)
       JUndefined Sample.world).1
  ∧ (requestGet_with (Some Runs.rejecting_logger) Sample.runtime
       (Runs.answering (JNum 7)) "countTokens" JUndefined Sample.world).1
    = (requestGet_with
         (Some (SessionLogger_object Sample.runtime Sample.logger))
         Sample.runtime (Runs.answering (JNum 7)) "countTokens" JUndefined
         Sample.world).1
  ∧ stream_outcome_with (Some Runs.rejecting_logger) Sample.runtime
      (Runs.answering (JNum 7)) "countTokens" (obj ∅) JUndefined 3
      Sample.world
    = stream_outcome_with
        (Some (SessionLogger_object Sample.runtime Sample.logger))
        Sample.runtime (Runs.answering (JNum 7)) "countTokens" (obj ∅)
        JUndefined 3 Sample.world.
Proof.
  apply (logger_isolation Sample.runtime (Runs.answering (JNum 7))
           "countTokens" (obj ∅) JUndefined Sample.world 3
           (Some Runs.rejecting_logger)
           (Some (SessionLogger_object Sample.runtime Sample.logger))).
  - intros log type d w H. injection H as <-. eexists. reflexivity.
  - intros log type d w H. injection H as <-. unfold SessionLogger_object.
    destruct (SessionLogger_log Sample.runtime Sample.logger type d w).
    eexists. reflexivity.
Defined.

(** C7, as the specification has it, fails: with a logger object whose
    [log] throws, a unary call that the transport answers with 7 fails
    with what [log] threw, and so does the [next()] that decoded a message
    of a streaming call; with an object of the class, and with no logger,
    the same calls give 7 and the message. *)
Lemma throwing_logger_fails_the_call :
  (requestPost_with (Some Runs.throwing_logger) Sample.runtime
     (Runs.answering (JNum 7)) "countTokens" (obj ∅) JUndefined
     Sample.world).1
  = Threw Runs.disk_full
  ∧ (requestPost_with
       (Some (SessionLogger_object Sample.runtime Sample.logger))
       Sample.runtime (Runs.answering (JNum 7)) "countTokens" (obj ∅)
       JUndefined Sample.world).1
    = Returned (JNum 7)
  ∧ (requestPost_with None Sample.runtime (Runs.answering (JNum 7))
       "countTokens" (obj ∅) JUndefined Sample.world).1
    = Returned (JNum 7)
  ∧ (requestGet_with (Some Runs.throwing_logger) Sample.runtime
       (Runs.answering (JNum 7)) "getCodeAssistGlobalUserSetting"
       JUndefined Sample.world).1
    = Threw Runs.disk_full
  ∧ (requestGet_with None Sample.runtime (Runs.answering (JNum 7))
       "getCodeAssistGlobalUserSetting" JUndefined Sample.world).1
    = Returned (JNum 7)
  ∧ stream_outcome_with (Some Runs.throwing_logger) Sample.runtime
      (Runs.answering Runs.two_frames) "streamGenerateContent" (obj ∅)
      JUndefined 3 Sample.world
    = Threw Runs.disk_full
  ∧ stream_outcome_with None Sample.runtime
      (Runs.answering Runs.two_frames) "streamGenerateContent" (obj ∅)
      JUndefined 3 Sample.world
    = Returned [Yielded (JNum 1); Yielded (JNum 2); Done]
  ∧ results_of
      (nexts_with (Some Runs.throwing_logger) Sample.runtime 3
         (decoder Runs.quiet "u" ["data: 1"; ""; "data: 2"; ""] None)
         Sample.world)
    = [Thrown Runs.disk_full; Done; Done]
  ∧ results_of
      (nexts_with
         (Some (SessionLogger_object Sample.runtime Sample.logger))
         Sample.runtime 3
         (decoder Runs.quiet "u" ["data: 1"; ""; "data: 2"; ""] None)
         Sample.world)
    = [Yielded (JNum 1); Yielded (JNum 2); Done].
Proof. repeat split; vm_compute; reflexivity. Qed.

(* The signal fires before the first [next()] and the line source neither
   delivers a line nor ends: no call settles. *)
Example fired_before_first_next :
  outcomes_of
    (run_consumer Sample.runtime [Fire [] Stalls; Pull; Pull]
       (mkStream (decoder Runs.quiet "u" ["data: 1"; ""] None) 1 false false)
       Sample.world)
  = [NeverSettles; NeverSettles].
Proof. reflexivity. Qed.

(* The signal fires after the first message and the line source fails with
   the abort error: the error comes where the end would have come. *)
Example abort_error_for_the_end :
  outcomes_of
    (run_consumer Sample.runtime [Pull; Pull]
       (mkStream (decoder Runs.quiet "u" ["data: 1"; ""] None) 1 false false)
       Sample.world)
  = [Settled (Yielded (JNum 1)); Settled Done]
  ∧ outcomes_of
      (run_consumer Sample.runtime
         [Pull; Fire [] (Fails Runs.abort_error); Pull]
         (mkStream (decoder Runs.quiet "u" ["data: 1"; ""] None) 1 false
            false)
         Sample.world)
    = [Settled (Yielded (JNum 1)); Settled (Thrown Runs.abort_error)].
Proof. split; reflexivity. Qed.

(* A firing on a generator that has finished changes nothing. *)
Example fired_after_the_end :
  outcomes_of
    (run_consumer Sample.runtime
       [Pull; Pull; Fire ["data: 2"; ""] Stalls; Pull]
       (mkStream (decoder Runs.quiet "u" ["data: 1"; ""] None) 1 false false)
       Sample.world)
  = [Settled (Yielded (JNum 1)); Settled Done; Settled Done].
Proof. reflexivity. Qed.

(** ** Further runs *)

(* The two data lines of the specification's example decode to one
   object. *)
Example multi_fragment_join :
  let q := String (ascii_of_nat 34) EmptyString in
  results_of
    (nexts Sample.runtime 2
       (decoder Runs.quiet "u"
          [ "data: {" +:+ q +:+ "a" +:+ q +:+ ":1,";
            "data: " +:+ q +:+ "b" +:+ q +:+ ":2}";
            "" ] None)
       Sample.world)
  = [Yielded (obj {[ "a" := JNum 1; "b" := JNum 2 ]}); Done].
Proof. vm_compute. reflexivity. Qed.

(* A blank line on an empty buffer: nothing is yielded, nothing thrown. *)
Example noop_blank :
  results_of
    (nexts Sample.runtime 2 (decoder Runs.quiet "u" [""; ""] None)
       Sample.world)
  = [Done; Done].
Proof. reflexivity. Qed.

(* A block that is not JSON: the SyntaxError of [JSON.parse] reaches the
   consumer and ends the sequence. *)
Example invalid_json_block :
  results_of
    (nexts Sample.runtime 3
       (decoder Runs.quiet "u" ["data: {"; ""; "data: 2"; ""] None)
       Sample.world)
  = [Thrown Sample.SyntaxError; Done; Done].
Proof. reflexivity. Qed.

(* An entry with the marker behind plain entries: the fallback applies. *)
Example tier_fallback :
  (loadCodeAssist Sample.runtime Sample.converters
     (Sample.server
        (Sample.client_failing
           (gaxios_error
              (JArr [obj {[ "reason" := JStr "OTHER" ]};
                     obj {[ "reason" := JStr "SECURITY_POLICY_VIOLATED" ]}])))
        None)
     (obj ∅) Sample.world).1
  = Returned (standard_tier Sample.converters).
Proof. vm_compute. reflexivity. Qed.

(* Another reason: the error of the transport comes back. *)
Example other_reason_rethrown :
  let e := gaxios_error (JArr [obj {[ "reason" := JStr "OTHER" ]}]) in
  (loadCodeAssist Sample.runtime Sample.converters
     (Sample.server (Sample.client_failing e) None) (obj ∅) Sample.world).1
  = Threw e.
Proof. vm_compute. reflexivity. Qed.

(* A file system that rejects every append: the call returns the body all
   the same, and the two failures are on the console. *)
Example failing_logger_run :
  let rt := with_logger_io Sample.stringify_const Sample.appendFile_failing
              Sample.runtime in
  let r := requestPost rt
             (Sample.server (Sample.client_answering (JNum 7))
                (Some Sample.logger))
             "countTokens" (obj ∅) JUndefined Sample.world in
  r.1 = Returned (JNum 7)
  ∧ List.length (console r.2) = 2
  ∧ files r.2 = ∅.
Proof. vm_compute. repeat split; reflexivity. Qed.

(* A log entry that cannot be serialized: nothing is written, the failure
   is on the console, and the caller has the body. *)
Example throwing_stringify_run :
  let rt := with_logger_io Sample.stringify_throwing Sample.appendFile_ok
              Sample.runtime in
  let r := requestGet rt
             (Sample.server (Sample.client_answering (JNum 7))
                (Some Sample.logger))
             "getCodeAssistGlobalUserSetting" JUndefined Sample.world in
  r.1 = Returned (JNum 7)
  ∧ List.length (console r.2) = 2
  ∧ List.length (log_calls r.2) = 2.
Proof. vm_compute. repeat split; reflexivity. Qed.

(* The URL a call asks for follows the environment of that call. *)
Example endpoint_read_per_call :
  let echo := mkClient (fun o => Returned (mkResponse (JStr (opt_url o)))) in
  let self := Sample.server echo None in
  let w1 := Sample.world in
  let w2 := mkWorld {[ "CODE_ASSIST_ENDPOINT" := "http://localhost:8080" ]}
              ∅ [] (clock w1) ∅ [] in
  (requestGet Sample.runtime self "m" JUndefined w1).1
  = Returned (JStr "https://cloudcode-pa.googleapis.com/v1internal:m")
  ∧ (requestGet Sample.runtime self "m" JUndefined w2).1
    = Returned (JStr "http://localhost:8080/v1internal:m").
Proof. vm_compute. split; reflexivity. Qed.

(** * Further properties of the dispatcher *)

Section Dispatcher.
Context (rt : Runtime) (cv : Converters).

Lemma log_opt_run self lg type d w :
  sessionLogger self = Some lg ->
  ∃ w', sessionLogger_log_opt rt self type d w = (Returned tt, w')
        ∧ log_calls w' = log_calls w ++ [(type, d)].
Proof.
  intros H. exists (sessionLogger_log_opt rt self type d w).2. split.
  - unfold sessionLogger_log_opt. rewrite H. reflexivity.
  - apply (log_opt_calls rt _ _ _ _ _ H).
Qed.

(** X1: of the headers a call sends, those given in [httpOptions] come
    first: a header of the caller replaces the default Content-Type, and
    without one the request carries Content-Type application/json. *)
Theorem caller_headers_override self method req signal w :
  ∃ sent : gmap string string,
    (requestPost rt self method req signal w).1
    = (body ← JSON_stringify rt req;
       res ← request (client self)
               (mkRequestOptions (getMethodUrl (env w) method) "POST" ∅ sent
                  "json" (Some body) signal);
       mret (data res))
    ∧ ∀ k : string,
        sent !! k
        = match default ∅ (headers (httpOptions self)) !! k with
          | Some v => Some v
          | None =>
              if decide (k = "Content-Type") then Some "application/json"
              else None
          end.
Proof.
  exists (request_headers self). split; [apply requestPost_result |].
  intros k. unfold request_headers. rewrite lookup_union.
  destruct (default ∅ (headers (httpOptions self)) !! k) as [v |] eqn:Hk.
  - destruct ({[ "Content-Type" := "application/json" ]} !! k); reflexivity.
  - destruct (decide (k = "Content-Type")) as [-> | Hne].
    + rewrite lookup_singleton_eq. reflexivity.
    + rewrite lookup_singleton_ne by congruence. reflexivity.
Qed.

(** X2: the record a unary POST leaves with a session logger: the request
    entry always; then, when the body cannot be serialized or the transport
    fails, nothing more and that error for the caller; otherwise the
    response entry with the body the transport returned, which is also the
    result. *)
Theorem requestPost_trace self lg method req signal w :
  sessionLogger self = Some lg ->
  let url := getMethodUrl (env w) method in
  let run := requestPost rt self method req signal w in
  match JSON_stringify rt req with
  | Threw e =>
      run.1 = Threw e
      ∧ log_calls run.2
        = log_calls w ++ [(MODEL_REQUEST, post_request_entry url req)]
  | Returned body =>
      match request (client self) (post_options self w method body signal)
      with
      | Threw e =>
          run.1 = Threw e
          ∧ log_calls run.2
            = log_calls w ++ [(MODEL_REQUEST, post_request_entry url req)]
      | Returned res =>
          run.1 = Returned (data res)
          ∧ log_calls run.2
            = log_calls w
              ++ [(MODEL_REQUEST, post_request_entry url req);
                  (MODEL_RESPONSE, response_entry url (data res))]
      end
  end.
Proof.
  intros Hlg url run. subst run. unfold requestPost, post_options.
  unmonad. fold url.
  destruct (log_opt_run self lg MODEL_REQUEST (post_request_entry url req) w
              Hlg) as (w1 & H1 & Hc1).
  unfold post_request_entry in H1. rewrite H1.
  destruct (JSON_stringify rt req) as [body | e]; [| split; [reflexivity | exact Hc1]].
  destruct (request (client self) _) as [res | e];
    [| split; [reflexivity | exact Hc1]].
  destruct (log_opt_run self lg MODEL_RESPONSE
              (response_entry url (data res)) w1 Hlg) as (w2 & H2 & Hc2).
  unfold response_entry in H2. rewrite H2. split; [reflexivity |].
  cbn. rewrite Hc2, Hc1, <- app_assoc. reflexivity.
Qed.

(** X3: the record a unary GET leaves with a session logger: the request
    entry (without a body), and the response entry only when the transport
    answered; the caller gets the body returned or the error of the
    transport. *)
Theorem requestGet_trace self lg method signal w :
  sessionLogger self = Some lg ->
  let url := getMethodUrl (env w) method in
  let run := requestGet rt self method signal w in
  match request (client self) (get_options self w method signal) with
  | Threw e =>
      run.1 = Threw e
      ∧ log_calls run.2 = log_calls w ++ [(MODEL_REQUEST, get_request_entry url)]
  | Returned res =>
      run.1 = Returned (data res)
      ∧ log_calls run.2
        = log_calls w
          ++ [(MODEL_REQUEST, get_request_entry url);
              (MODEL_RESPONSE, get_response_entry url (data res))]
  end.
Proof.
  intros Hlg url run. subst run. unfold requestGet, get_options.
  unmonad. fold url.
  destruct (log_opt_run self lg MODEL_REQUEST (get_request_entry url) w Hlg)
    as (w1 & H1 & Hc1).
  unfold get_request_entry in H1. rewrite H1.
  destruct (request (client self) _) as [res | e];
    [| split; [reflexivity | exact Hc1]].
  destruct (log_opt_run self lg MODEL_RESPONSE
              (get_response_entry url (data res)) w1 Hlg) as (w2 & H2 & Hc2).
  unfold get_response_entry in H2. rewrite H2. split; [reflexivity |].
  cbn. rewrite Hc2, Hc1, <- app_assoc. reflexivity.
Qed.

(** X4: a streaming call reads nothing of the response: once the body is
    serialized and the transport has answered, it returns a generator that
    has not started, whatever the stream holds, and the only log entry is
    the request's, marked with params alt=sse.  What is wrong with the
    stream shows at [next()]. *)
Theorem requestStreamingPost_lazy self lg method req signal w body res :
  sessionLogger self = Some lg ->
  JSON_stringify rt req = Returned body ->
  request (client self) (stream_options self w method body signal)
  = Returned res ->
  let url := getMethodUrl (env w) method in
  let run := requestStreamingPost rt self method req signal w in
  run.1 = Returned (mkGenerator self url res GenStart)
  ∧ log_calls run.2
    = log_calls w ++ [(MODEL_REQUEST, stream_request_entry url req)].
Proof.
  intros Hlg Hs Hr url run. subst run.
  unfold requestStreamingPost, stream_options in *. unmonad. fold url.
  destruct (log_opt_run self lg MODEL_REQUEST (stream_request_entry url req)
              w Hlg) as (w1 & H1 & Hc1).
  unfold stream_request_entry in H1. rewrite H1, Hs.
  fold url in Hr. rewrite Hr. split; [reflexivity | exact Hc1].
Qed.


(** ** Further properties of the stream decoder *)

Lemma seen_after_end n : ∀ msgs e i j r,
  seen n msgs e !! i = Some r ->
  (∀ v, r ≠ Yielded v) ->
  (i < j)%nat -> (j < n)%nat ->
  seen n msgs e !! j = Some Done.
Proof.
  induction n as [| n IH]; intros msgs e i j r Hi Hr Hij Hjn; [lia |].
  destruct msgs as [| v msgs]; cbn [seen] in *.
  - destruct j as [| j]; [lia |]. cbn.
    apply lookup_replicate_2. lia.
  - destruct i as [| i]; cbn in Hi.
    + injection Hi as <-. exfalso. exact (Hr v eq_refl).
    + destruct j as [| j]; [lia |]. cbn.
      apply (IH msgs e i j r); [assumption | assumption | lia | lia].
Qed.

(** X5: the sequence is forward-only: once a [next()] has reported the end
    or has thrown, every later [next()] reports the end; no message and no
    second error follows. *)
Theorem generator_end_is_final n g w (i j : nat) r :
  results_of (nexts rt n g w) !! i = Some r ->
  (∀ v, r ≠ Yielded v) ->
  (i < j)%nat -> (j < n)%nat ->
  results_of (nexts rt n g w) !! j = Some Done.
Proof. rewrite nexts_results. apply seen_after_end. Qed.

(** X6: when the line source fails (the response stream breaks) after
    lines that decode to [msgs], the consumer still receives [msgs]; then
    the error of the source is thrown, and fragments buffered at that
    moment are dropped. *)
Theorem source_failure_after_messages self url lines msgs e w0 w n :
  results_of
    (nexts rt (S (List.length msgs)) (decoder self url lines None) w0)
  = map Yielded msgs ++ [Done] ->
  results_of (nexts rt n (decoder self url lines (Some e)) w)
  = seen n msgs (Thrown e).
Proof.
  intros Hpre. destruct (decoded_is_reading rt _ _ _ _ _ Hpre) as [b Hb].
  rewrite nexts_results, pending_decoder. cbn [fst snd]. rewrite Hb.
  reflexivity.
Qed.

Lemma yielded_replicate_done k : yielded (replicate k Done) = [].
Proof. induction k; [reflexivity | assumption]. Qed.

Lemma yielded_seen n : ∀ msgs e,
  (∀ v, e ≠ Yielded v) -> yielded (seen n msgs e) = take n msgs.
Proof.
  induction n as [| n IH]; intros msgs e He; [reflexivity |].
  destruct msgs as [| v msgs]; cbn [seen yielded take].
  - destruct e as [v | |]; [exfalso; exact (He v eq_refl) | |];
      apply yielded_replicate_done.
  - rewrite (IH _ _ He). reflexivity.
Qed.

(** X7: decoding is incremental: the messages a consumer receives from the
    first lines of a stream do not depend on the lines that follow; after
    the same number of [next()] calls, what was yielded for the lines
    [l1] alone begins what is yielded for [l1 ++ l2]. *)
Theorem decoding_is_incremental self url (l1 l2 : list string) fin1 fin2
    w1 w2 n :
  yielded (results_of (nexts rt n (decoder self url l1 fin1) w1))
  `prefix_of`
  yielded (results_of (nexts rt n (decoder self url (l1 ++ l2) fin2) w2)).
Proof.
  rewrite !nexts_results, !pending_decoder. cbn [fst snd].
  rewrite !yielded_seen by (intros v; apply ending_not_yielded).
  rewrite feed_app. destruct (feed rt [] l1) as [msgs [b | e]]; cbn [fst].
  - destruct (feed rt b l2) as [msgs2 p]. cbn [fst].
    rewrite take_app. apply prefix_app_r. reflexivity.
  - reflexivity.
Qed.

(** X8: a block that [JSON.parse] rejects ends the sequence with the error
    of [JSON.parse]: the messages of the blocks before it are yielded, then
    that error is thrown, and the frames after it are never decoded. *)
Theorem unparsable_block_stops_decoding self url
    (blocks : list (list string)) (vs : list JsValue)
    (b : list string) (post : list string) fin e w n :
  Forall (Forall (fun l => startsWith "data: " l = true)) blocks ->
  Forall2 (fun b v => JSON_parse rt (join NL (fragments b)) = Returned v)
    (List.filter nonempty blocks) vs ->
  Forall (fun l => startsWith "data: " l = true) b ->
  b ≠ [] ->
  JSON_parse rt (join NL (fragments b)) = Threw e ->
  results_of
    (nexts rt n
       (decoder self url (framed blocks ++ b ++ "" :: post) fin) w)
  = seen n vs (Thrown e).
Proof.
  intros Hblocks Hvs Hb Hne He.
  rewrite nexts_results, pending_decoder. cbn [fst snd].
  rewrite feed_app, (feed_framed rt _ _ Hblocks Hvs).
  rewrite (feed_block rt b _ _ Hb).
  destruct b as [| l b]; [congruence |].
  cbn [app fragments map] in He |- *. cbn [feed String.eqb]. rewrite He.
  cbn. rewrite app_nil_r. reflexivity.
Qed.

Lemma response_log_fold self lg url vs : ∀ w,
  sessionLogger self = Some lg ->
  log_calls
    (foldl (fun w' v =>
              (sessionLogger_log_opt rt self MODEL_RESPONSE
                 (response_entry url v) w').2) w vs)
  = log_calls w ++ map (fun v => (MODEL_RESPONSE, response_entry url v)) vs.
Proof.
  induction vs as [| v vs IH]; intros w H.
  - cbn. rewrite app_nil_r. reflexivity.
  - cbn [foldl map]. rewrite (IH _ H), (log_opt_calls rt _ _ _ _ _ H).
    rewrite <- app_assoc. reflexivity.
Qed.

(** X9: with a session logger, the log calls a generator makes are the
    response entries of the messages it has yielded, one for each, in the
    order of the messages; reaching the end or throwing logs nothing. *)
Theorem stream_log_is_the_messages g lg w n :
  sessionLogger (gen_self g) = Some lg ->
  log_calls (world_of (nexts rt n g w))
  = log_calls w
    ++ map (fun v => (MODEL_RESPONSE, response_entry (gen_url g) v))
         (yielded (results_of (nexts rt n g w))).
Proof.
  intros Hlg. rewrite nexts_world. apply (response_log_fold _ _ _ _ _ Hlg).
Qed.

Lemma nexts_after_end n : ∀ g w,
  gen_phase g = GenDone -> nexts rt n g w = (replicate n Done, g, w).
Proof.
  induction n as [| n IH]; intros g w H; [reflexivity |].
  cbn [nexts]. unfold gen_next. rewrite H. rewrite (IH _ _ H). reflexivity.
Qed.

Lemma ContentStream_finished n : ∀ s w,
  cs_finished s = true ->
  results_of (ContentStream_nexts rt cv n s w) = replicate n Done.
Proof.
  induction n as [| n IH]; intros s w H; [reflexivity |].
  cbn [ContentStream_nexts]. unfold ContentStream_next. rewrite H.
  specialize (IH s w H).
  destruct (ContentStream_nexts rt cv n s w) as [[rs s'] w'].
  unfold results_of in *. cbn in *. rewrite IH. reflexivity.
Qed.

Lemma map_converted_done n :
  map (converted cv) (replicate n Done) = replicate n Done.
Proof. induction n; [reflexivity | cbn; f_equal; assumption]. Qed.

(** X10: the stream [generateContentStream] returns follows the decoder
    call for call: each message is handed on converted by
    [fromGenerateContentResponse], the end and an error are handed on as
    they are, and after them the stream stays at its end. *)
Theorem generateContentStream_converts n : ∀ g w,
  results_of (ContentStream_nexts rt cv n (mkContentStream g false) w)
  = map (converted cv) (results_of (nexts rt n g w)).
Proof.
  induction n as [| n IH]; intros g w; [reflexivity |].
  cbn [ContentStream_nexts nexts]. unfold ContentStream_next.
  cbn [cs_finished cs_resps].
  pose proof (gen_next_feed rt g w) as H.
  destruct (feed rt [] (pending_source g).1) as [[| v msgs] p].
  - destruct H as (g' & -> & _ & _ & Hph).
    rewrite (nexts_after_end n g' w Hph).
    destruct (ending (pending_source g).2 p) as [v | | e] eqn:He;
      [exfalso; exact (ending_not_yielded _ _ _ He) | |].
    all: pose proof (ContentStream_finished n (mkContentStream g' true) w
                       eq_refl) as Hf;
      destruct (ContentStream_nexts rt cv n (mkContentStream g' true) w)
        as [[rs s'] w'];
      unfold results_of in *; cbn in *; rewrite Hf, map_converted_done;
      reflexivity.
  - destruct H as (g' & -> & _).
    match goal with
    | |- context [nexts rt n g' ?w1] => specialize (IH g' w1)
    end.
    match goal with
    | |- context [nexts rt n g' ?w1] =>
        destruct (nexts rt n g' w1) as [[rs g''] w''];
        destruct (ContentStream_nexts rt cv n (mkContentStream g' false) w1)
          as [[rs2 s2] w2]
    end.
    unfold results_of in *. cbn in *. rewrite IH. reflexivity.
Qed.

(** ** Further properties of the operations *)

(** X11: [generateContent] posts the converted request to the method
    generateContent, hands the caller's [config.abortSignal] to the
    transport, and returns the body of the answer converted by
    [fromGenerateContentResponse]. *)
Theorem generateContent_success self req prompt w signal body res :
  abortSignal_of req = Returned signal ->
  JSON_stringify rt
    (toGenerateContentRequest cv req prompt (projectId self) (sessionId self))
  = Returned body ->
  request (client self) (post_options self w "generateContent" body signal)
  = Returned res ->
  (generateContent rt cv self req prompt w).1
  = Returned (fromGenerateContentResponse cv (data res)).
Proof.
  intros Ha Hs Hr. unfold generateContent. rewrite bind_fst.
  unfold lift. rewrite Ha. rewrite bind_fst.
  pose proof (requestPost_result rt self "generateContent"
                (toGenerateContentRequest cv req prompt (projectId self)
                   (sessionId self)) signal w) as H.
  rewrite Hs in H. cbn in H. rewrite Hr in H. cbn in H.
  destruct (requestPost rt self "generateContent" _ signal w)
    as [[a | e'] w']; cbn in H; [| discriminate].
  injection H as ->. reflexivity.
Qed.

(** X12: [countTokens] posts the converted request to the method
    countTokens with no cancellation signal, whatever the request holds,
    and returns the body of the answer converted by
    [fromCountTokenResponse]. *)
Theorem countTokens_success self req w body res :
  JSON_stringify rt (toCountTokenRequest cv req) = Returned body ->
  request (client self) (post_options self w "countTokens" body JUndefined)
  = Returned res ->
  (countTokens rt cv self req w).1
  = Returned (fromCountTokenResponse cv (data res)).
Proof.
  intros Hs Hr. unfold countTokens. rewrite bind_fst.
  pose proof (requestPost_result rt self "countTokens"
                (toCountTokenRequest cv req) JUndefined w) as H.
  rewrite Hs in H. cbn in H. rewrite Hr in H. cbn in H.
  destruct (requestPost rt self "countTokens" _ JUndefined w)
    as [[a | e'] w']; cbn in H; [| discriminate].
  injection H as ->. reflexivity.
Qed.

(** X13: when the transport answers, [loadCodeAssist] returns the body as
    it is; the classifier is not consulted, so a body that itself looks
    like a policy error is returned like any other. *)
Theorem loadCodeAssist_success self req w body res :
  JSON_stringify rt req = Returned body ->
  request (client self) (post_options self w "loadCodeAssist" body JUndefined)
  = Returned res ->
  (loadCodeAssist rt cv self req w).1 = Returned (data res).
Proof.
  intros Hs Hr. rewrite loadCodeAssist_result, requestPost_result, Hs.
  cbn. rewrite Hr. reflexivity.
Qed.

(** ** Further properties of the classifier *)

(** X15: the classifier answers false, without throwing, for every value
    that is not an object with a [response] property (undefined, null,
    booleans, numbers, strings, arrays, objects without [response]) and for
    every object whose [response.data.error.details] is not an array. *)
Theorem classifier_false_without_details error :
  (∀ cls props r,
     error = JObj cls props ->
     props !! "response" = Some r ->
     ∀ entries,
       get_prop_opt (get_prop_opt (get_prop_opt r "data") "error") "details"
       ≠ JArr entries) ->
  isVpcScAffectedUser error = Returned false.
Proof.
  intros H. rewrite isVpcScAffectedUser_details. unfold details_array.
  destruct error as [| | | | | | cls props | |]; try reflexivity.
  destruct (props !! "response") as [r |] eqn:Hr; [| reflexivity].
  specialize (H cls props r eq_refl Hr).
  destruct (get_prop_opt (get_prop_opt (get_prop_opt r "data") "error")
              "details") as [| | | | | entries | | |]; try reflexivity.
  exfalso. exact (H entries eq_refl).
Qed.

Lemma array_some_found pre : ∀ d post,
  Forall (fun x => is_nullish x = false) pre ->
  names_violation d = true ->
  array_some detail_matches (pre ++ d :: post) = Returned true.
Proof.
  induction pre as [| x pre IH]; intros d post Hpre Hd; cbn.
  - assert (is_nullish d = false) as Hn
      by (destruct d; try reflexivity; discriminate Hd).
    rewrite (detail_matches_object d Hn), Hd. reflexivity.
  - inversion Hpre as [| ? ? Hx Hpre']; subst.
    rewrite (detail_matches_object x Hx).
    destruct (names_violation x); [reflexivity | apply IH; assumption].
Qed.

(** X16: the scan of the details stops at the first entry whose reason is
    SECURITY_POLICY_VIOLATED: when no null or undefined entry stands before
    it the classifier answers true, whatever comes after it, a null entry
    included. *)
Theorem classifier_true_at_first_marker error pre d post :
  details_array error = Some (pre ++ d :: post) ->
  Forall (fun x => is_nullish x = false) pre ->
  names_violation d = true ->
  isVpcScAffectedUser error = Returned true.
Proof.
  intros Hd Hpre Hm. rewrite isVpcScAffectedUser_details, Hd.
  apply array_some_found; assumption.
Qed.

(** ** Further properties of the session logger *)

(* The early return of [log]. *)
Lemma log_early_return lg type d w :
  negb (initialized lg) || negb (path_truthy (logFilePath lg)) = true ->
  SessionLogger_log rt lg type d w = (Returned tt, record_log_call type d w).
Proof. intros H. unfold SessionLogger_log. unmonad. rewrite H. reflexivity. Qed.

(** X17: a logger that is not initialized, or has no file path, logs
    nothing: the call fulfils and leaves files and console as they are. *)
Theorem log_silent_when_uninitialized lg type d w :
  initialized lg = false ∨ path_truthy (logFilePath lg) = false ->
  (SessionLogger_log rt lg type d w).1 = Returned tt
  ∧ files (SessionLogger_log rt lg type d w).2 = files w
  ∧ console (SessionLogger_log rt lg type d w).2 = console w.
Proof.
  intros H. rewrite log_early_return.
  - repeat split; reflexivity.
  - destruct H as [-> | ->]; [reflexivity | apply orb_true_r].
Qed.

(** X18: on a file system whose [appendFile] appends, a log call of an
    initialized logger adds exactly one line to the logger's file, the
    serialized entry (timestamp, type, data) followed by a line feed,
    behind what the file held; no other file and nothing on the console
    changes. *)
Theorem log_appends_one_line lg type d w path text :
  appending rt ->
  initialized lg = true ->
  logFilePath lg = Some path ->
  path ≠ "" ->
  JSON_stringify_replaced rt (log_entry w type d) = Returned text ->
  let w' := (SessionLogger_log rt lg type d w).2 in
  files w' !! path = Some (default "" (files w !! path) +:+ text +:+ NL)
  ∧ (∀ p, p ≠ path -> files w' !! p = files w !! p)
  ∧ console w' = console w.
Proof.
  intros Happ Hinit Hpath Hne Htext w'. subst w'.
  unfold SessionLogger_log, log_entry in *. unmonad.
  rewrite Hinit, Hpath. cbn.
  apply String.eqb_neq in Hne. rewrite Hne. cbn.
  rewrite Htext, Happ. cbn. repeat split.
  - apply lookup_insert_eq.
  - intros p Hp. apply lookup_insert_ne. congruence.
Qed.

(** X19: when the entry cannot be serialized, or [appendFile] rejects, the
    log call still fulfils; the files are untouched and the error is
    printed once on the console. *)
Theorem log_failure_is_contained lg type d w path e :
  initialized lg = true ->
  logFilePath lg = Some path ->
  path ≠ "" ->
  (JSON_stringify_replaced rt (log_entry w type d) = Threw e
   ∨ ∃ text,
       JSON_stringify_replaced rt (log_entry w type d) = Returned text
       ∧ fs_appendFile rt (files w) path (text +:+ NL) = Threw e) ->
  let run := SessionLogger_log rt lg type d w in
  run.1 = Returned tt
  ∧ files run.2 = files w
  ∧ console run.2
    = console w ++ [("Error writing to session log file:", e)].
Proof.
  intros Hinit Hpath Hne Hfail run. subst run.
  unfold SessionLogger_log, log_entry in *. unmonad.
  rewrite Hinit, Hpath. cbn.
  apply String.eqb_neq in Hne. rewrite Hne. cbn.
  destruct Hfail as [-> | (text & -> & ->)]; repeat split; reflexivity.
Qed.

(** X20: [initialize] on a logger not yet initialized creates the logs
    directory under the project's temporary directory and, when that
    succeeds, returns the logger initialized with the file path
    logs/<session id>.log.jsonl in it; on an initialized logger it does
    nothing, so a second call changes neither the logger nor the world. *)
Theorem initialize_then_idempotent lg w fs' :
  initialized lg = false ->
  let logsDir := path_join rt (getProjectTempDir (storage lg)) "logs" in
  fs_mkdir rt (files w) logsDir = Returned fs' ->
  let lg' :=
    mkSessionLogger
      (Some (path_join rt logsDir (sessionId_ lg +:+ ".log.jsonl")))
      (sessionId_ lg) true (storage lg) in
  SessionLogger_initialize rt lg w = (Returned lg', set_files fs' w)
  ∧ ∀ w2, SessionLogger_initialize rt lg' w2 = (Returned lg', w2).
Proof.
  intros Hinit logsDir Hmk lg'. split.
  - unfold SessionLogger_initialize. rewrite Hinit. unmonad.
    fold logsDir. rewrite Hmk. reflexivity.
  - intros w2. reflexivity.
Qed.

(** X21: when creating the logs directory fails, [initialize] does not
    throw: it prints the error and returns a logger that is not
    initialized, and every later log call on that logger is silent. *)
Theorem failed_initialize_silences_logger lg w e :
  initialized lg = false ->
  fs_mkdir rt (files w)
    (path_join rt (getProjectTempDir (storage lg)) "logs") = Threw e ->
  ∃ lg',
    SessionLogger_initialize rt lg w
    = (Returned lg',
       console_print "Failed to initialize session logger:" e w)
    ∧ initialized lg' = false
    ∧ ∀ type d w2,
        (SessionLogger_log rt lg' type d w2).1 = Returned tt
        ∧ files (SessionLogger_log rt lg' type d w2).2 = files w2
        ∧ console (SessionLogger_log rt lg' type d w2).2 = console w2.
Proof.
  intros Hinit Hmk. eexists. split; [| split].
  - unfold SessionLogger_initialize. rewrite Hinit. unmonad. rewrite Hmk.
    reflexivity.
  - reflexivity.
  - intros type d w2. rewrite log_early_return by reflexivity.
    repeat split; reflexivity.
Qed.

End Dispatcher.

(** ** The replacer *)

(* Settles a goal that compares two tests of membership. *)
Ltac same_membership :=
  repeat match goal with
         | |- context [decide ?P] => destruct (decide P)
         end;
  first [reflexivity | exfalso; set_solver].

Lemma replace_visits_lookup visits : ∀ seen (i : nat) key value,
  visits !! i = Some (key, value) ->
  replace_visits seen visits !! i
  = Some match value with
         | VBigInt z => RString (BigInt_toString z)
         | VObject addr =>
             if decide (addr ∈ seen ∪ objects_of (take i visits))
             then RString "[Circular]" else RSame
         | VOther _ => RSame
         end.
Proof.
  induction visits as [| [k0 v0] visits IH]; intros seen i key value Hi;
    [discriminate |].
  destruct i as [| i].
  - cbn in Hi. injection Hi as -> ->. cbn.
    destruct value as [z | a | v]; cbn; try reflexivity.
    same_membership.
  - change (visits !! i = Some (key, value)) in Hi.
    cbn [replace_visits].
    destruct (replacer seen k0 v0) as [r seen'] eqn:Hr.
    change ((r :: replace_visits seen' visits) !! S i)
      with (replace_visits seen' visits !! i).
    rewrite (IH seen' i key value Hi).
    destruct value as [z | a | v]; try reflexivity.
    f_equal. change (take (S i) ((k0, v0) :: visits))
      with ((k0, v0) :: take i visits).
    destruct v0 as [z0 | a0 | v0']; cbn in Hr |- *.
    + injection Hr as _ <-. reflexivity.
    + destruct (decide (a0 ∈ seen)); injection Hr as _ <-; same_membership.
    + injection Hr as _ <-. reflexivity.
Qed.

(** X22: over the values of one serialization the replacer returns an
    object as it is where the object is visited for the first time and the
    string [Circular] (in brackets) wherever it is visited again, be it
    through a cycle or through a second plain reference; a BigInt becomes
    its decimal digits and every other value is returned as it is. *)
Theorem replacer_marks_repeated_objects (visits : list (string * Visited))
    (i : nat) key value :
  visits !! i = Some (key, value) ->
  replace_visits ∅ visits !! i
  = Some match value with
         | VBigInt z => RString (BigInt_toString z)
         | VObject addr =>
             if decide (addr ∈ objects_of (take i visits))
             then RString "[Circular]" else RSame
         | VOther _ => RSame
         end.
Proof.
  intros Hi. rewrite (replace_visits_lookup _ _ _ _ _ Hi).
  destruct value as [z | a | v]; try reflexivity.
  same_membership.
Qed.

(** X14: when the transport fails [loadCodeAssist] with an error whose
    details array holds no null or undefined entry, the call resolves with
    the standard-tier object if some entry has the reason
    SECURITY_POLICY_VIOLATED, and otherwise rejects with the error of the
    transport itself. *)
Theorem tier_fallback_on_plain_details rt cv self req w body e
    (entries : list JsValue) :
  JSON_stringify rt req = Returned body ->
  request (client self) (post_options self w "loadCodeAssist" body JUndefined)
  = Threw e ->
  details_array e = Some entries ->
  Forall (fun d => is_nullish d = false) entries ->
  (loadCodeAssist rt cv self req w).1
  = if existsb names_violation entries then Returned (standard_tier cv)
    else Threw e.
Proof.
  intros Hs Hr Hd Hok. rewrite loadCodeAssist_result.
  rewrite (requestPost_propagates rt _ _ _ _ _ _ _ Hs Hr).
  rewrite isVpcScAffectedUser_details, Hd, (array_some_objects _ Hok).
  destruct (existsb names_violation entries); reflexivity.
Qed.

(** ** The further statements at work on the sample platform *)

Module MoreRuns.
Import Sample.

Definition answering7 : CodeAssistServer :=
  server (client_answering (JNum 7)) (Some logger).

Definition refusing : CodeAssistServer :=
  server (client_failing (JStr "ECONNRESET")) (Some logger).

Definition streaming : CodeAssistServer :=
  server (client_answering (JStream ["oops"] None)) (Some logger).

Definition fresh_logger : SessionLogger :=
  mkSessionLogger None "s" false (mkStorage "/tmp").

Definition readonly_runtime : Runtime :=
  mkRuntime read_json stringify_const stringify_const appendFile_failing
            (fun _ _ => Threw (new_Error "Error" "EROFS: read-only file system"))
            (fun a b => a +:+ "/" +:+ b).

Definition marked : JsValue :=
  obj {[ "reason" := JStr "SECURITY_POLICY_VIOLATED" ]}.

Definition url_of (m : string) : string :=
  "https://cloudcode-pa.googleapis.com/v1internal:" +:+ m.

End MoreRuns.

Lemma requestPost_trace_witness :
  (requestPost Sample.runtime MoreRuns.answering7 "m" (obj ∅) JUndefined
     Sample.world).1
  = Returned (JNum 7)
  ∧ log_calls
      (requestPost Sample.runtime MoreRuns.answering7 "m" (obj ∅) JUndefined
         Sample.world).2
    = [] ++ [(MODEL_REQUEST, post_request_entry (MoreRuns.url_of "m") (obj ∅));
             (MODEL_RESPONSE, response_entry (MoreRuns.url_of "m") (JNum 7))].
Proof.
  exact (requestPost_trace Sample.runtime MoreRuns.answering7 Sample.logger
           "m" (obj ∅) JUndefined Sample.world eq_refl).
Defined.

Lemma requestGet_trace_witness :
  (requestGet Sample.runtime MoreRuns.refusing "m" JUndefined Sample.world).1
  = Threw (JStr "ECONNRESET")
  ∧ log_calls
      (requestGet Sample.runtime MoreRuns.refusing "m" JUndefined
         Sample.world).2
    = [] ++ [(MODEL_REQUEST, get_request_entry (MoreRuns.url_of "m"))].
Proof.
  exact (requestGet_trace Sample.runtime MoreRuns.refusing Sample.logger
           "m" JUndefined Sample.world eq_refl).
Defined.

Lemma requestStreamingPost_lazy_witness :
  (requestStreamingPost Sample.runtime MoreRuns.streaming "m" (obj ∅)
     JUndefined Sample.world).1
  = Returned
      (mkGenerator MoreRuns.streaming (MoreRuns.url_of "m")
         (mkResponse (JStream ["oops"] None)) GenStart)
  ∧ log_calls
      (requestStreamingPost Sample.runtime MoreRuns.streaming "m" (obj ∅)
         JUndefined Sample.world).2
    = [] ++ [(MODEL_REQUEST,
              stream_request_entry (MoreRuns.url_of "m") (obj ∅))].
Proof.
  exact (requestStreamingPost_lazy Sample.runtime MoreRuns.streaming
           Sample.logger "m" (obj ∅) JUndefined Sample.world "{}"
           (mkResponse (JStream ["oops"] None)) eq_refl eq_refl eq_refl).
Defined.

Lemma generator_end_is_final_witness :
  results_of
    (nexts Sample.runtime 4
       (decoder Runs.quiet "u" ["oops"; "data: 1"; ""] None) Sample.world)
  !! 2%nat
  = Some Done.
Proof.
  apply (generator_end_is_final Sample.runtime 4
           (decoder Runs.quiet "u" ["oops"; "data: 1"; ""] None) Sample.world
           0 2
           (Thrown (new_Error "Error"
                      "Unexpected line format in response: oops"))).
  - reflexivity.
  - intros v H. discriminate H.
  - lia.
  - lia.
Defined.

Lemma source_failure_after_messages_witness :
  results_of
    (nexts Sample.runtime 3
       (decoder Runs.quiet "u" ["data: 1"; ""; "data: 2"]
          (Some (JStr "aborted"))) Sample.world)
  = [Yielded (JNum 1); Thrown (JStr "aborted"); Done].
Proof.
  apply (source_failure_after_messages Sample.runtime Runs.quiet "u"
           ["data: 1"; ""; "data: 2"] [JNum 1] (JStr "aborted")
           Sample.world Sample.world 3).
  reflexivity.
Defined.

Lemma unparsable_block_stops_decoding_witness :
  results_of
    (nexts Sample.runtime 3
       (decoder Runs.quiet "u"
          (framed [["data: 1"]] ++ ["data: {"] ++ "" :: ["data: 2"; ""])
          None) Sample.world)
  = [Yielded (JNum 1); Thrown Sample.SyntaxError; Done].
Proof.
  apply (unparsable_block_stops_decoding Sample.runtime Runs.quiet "u"
           [["data: 1"]] [JNum 1] ["data: {"] ["data: 2"; ""] None
           Sample.SyntaxError Sample.world 3).
  - repeat constructor.
  - repeat constructor.
  - repeat constructor.
  - discriminate.
  - reflexivity.
Defined.

Lemma stream_log_is_the_messages_witness :
  log_calls
    (world_of
       (nexts Sample.runtime 3
          (decoder Runs.logging "u" ["data: 1"; ""; "data: 2"; ""] None)
          Sample.world))
  = [] ++ map (fun v => (MODEL_RESPONSE, response_entry "u" v))
            (yielded
               (results_of
                  (nexts Sample.runtime 3
                     (decoder Runs.logging "u"
                        ["data: 1"; ""; "data: 2"; ""] None)
                     Sample.world))).
Proof.
  apply (stream_log_is_the_messages Sample.runtime
           (decoder Runs.logging "u" ["data: 1"; ""; "data: 2"; ""] None)
           Sample.logger Sample.world 3).
  reflexivity.
Defined.

Lemma generateContent_success_witness :
  (generateContent Sample.runtime Sample.converters MoreRuns.answering7
     (obj {[ "config" := obj {[ "abortSignal" := JSignal 1 ]} ]}) "p"
     Sample.world).1
  = Returned (JNum 7).
Proof.
  apply (generateContent_success Sample.runtime Sample.converters
           MoreRuns.answering7
           (obj {[ "config" := obj {[ "abortSignal" := JSignal 1 ]} ]}) "p"
           Sample.world (JSignal 1) "{}" (mkResponse (JNum 7)));
    reflexivity.
Defined.

Lemma countTokens_success_witness :
  (countTokens Sample.runtime Sample.converters MoreRuns.answering7 (obj ∅)
     Sample.world).1
  = Returned (JNum 7).
Proof.
  apply (countTokens_success Sample.runtime Sample.converters
           MoreRuns.answering7 (obj ∅) Sample.world "{}"
           (mkResponse (JNum 7)));
    reflexivity.
Defined.

Lemma loadCodeAssist_success_witness :
  (loadCodeAssist Sample.runtime Sample.converters
     (Sample.server
        (Sample.client_answering (gaxios_error (JArr [MoreRuns.marked])))
        None)
     (obj ∅) Sample.world).1
  = Returned (gaxios_error (JArr [MoreRuns.marked])).
Proof.
  apply (loadCodeAssist_success Sample.runtime Sample.converters _ (obj ∅)
           Sample.world "{}"
           (mkResponse (gaxios_error (JArr [MoreRuns.marked]))));
    reflexivity.
Defined.

Lemma tier_fallback_on_plain_details_witness :
  (loadCodeAssist Sample.runtime Sample.converters
     (Sample.server
        (Sample.client_failing (gaxios_error (JArr [obj ∅; MoreRuns.marked])))
        None)
     (obj ∅) Sample.world).1
  = Returned (standard_tier Sample.converters).
Proof.
  assert (Forall (fun d => is_nullish d = false) [obj ∅; MoreRuns.marked])
    as Hobjects by (repeat constructor).
  pose proof (tier_fallback_on_plain_details Sample.runtime Sample.converters
                (Sample.server
                   (Sample.client_failing
                      (gaxios_error (JArr [obj ∅; MoreRuns.marked]))) None)
                (obj ∅) Sample.world "{}"
                (gaxios_error (JArr [obj ∅; MoreRuns.marked]))
                [obj ∅; MoreRuns.marked] eq_refl eq_refl eq_refl Hobjects)
    as H.
  vm_compute (existsb _ _) in H. exact H.
Defined.

Lemma classifier_false_without_details_witness :
  isVpcScAffectedUser
    (JObj "Error" {[ "response" := obj {[ "data" := JStr "Forbidden" ]} ]})
  = Returned false.
Proof.
  apply classifier_false_without_details.
  intros cls props r Heq Hr entries. injection Heq as <- <-.
  vm_compute in Hr. injection Hr as <-. discriminate.
Defined.

Lemma classifier_true_at_first_marker_witness :
  isVpcScAffectedUser (gaxios_error (JArr [obj ∅; MoreRuns.marked; JNull]))
  = Returned true.
Proof.
  apply (classifier_true_at_first_marker _ [obj ∅] MoreRuns.marked [JNull]).
  - reflexivity.
  - repeat constructor.
  - reflexivity.
Defined.

Lemma log_silent_when_uninitialized_witness :
  (SessionLogger_log Sample.runtime MoreRuns.fresh_logger MODEL_REQUEST JNull
     Sample.world).1
  = Returned tt
  ∧ files
      (SessionLogger_log Sample.runtime MoreRuns.fresh_logger MODEL_REQUEST
         JNull Sample.world).2
    = files Sample.world
  ∧ console
      (SessionLogger_log Sample.runtime MoreRuns.fresh_logger MODEL_REQUEST
         JNull Sample.world).2
    = console Sample.world.
Proof.
  apply (log_silent_when_uninitialized Sample.runtime MoreRuns.fresh_logger
           MODEL_REQUEST JNull Sample.world).
  left. reflexivity.
Defined.

Lemma log_appends_one_line_witness :
  files
    (SessionLogger_log Sample.runtime Sample.logger MODEL_REQUEST JNull
       (set_files {[ "/tmp/logs/s.log.jsonl" := "old" ]} Sample.world)).2
  !! "/tmp/logs/s.log.jsonl"
  = Some ("old" +:+ "{}" +:+ NL).
Proof.
  assert (appending Sample.runtime) as Happ
    by (intros fs path text; reflexivity).
  assert ("/tmp/logs/s.log.jsonl" ≠ "") as Hne by discriminate.
  exact (proj1 (log_appends_one_line Sample.runtime Sample.logger
                  MODEL_REQUEST JNull
                  (set_files {[ "/tmp/logs/s.log.jsonl" := "old" ]}
                     Sample.world)
                  "/tmp/logs/s.log.jsonl" "{}" Happ eq_refl eq_refl Hne
                  eq_refl)).
Defined.

Lemma log_failure_is_contained_witness :
  (SessionLogger_log MoreRuns.readonly_runtime Sample.logger MODEL_REQUEST
     JNull Sample.world).1
  = Returned tt
  ∧ files
      (SessionLogger_log MoreRuns.readonly_runtime Sample.logger
         MODEL_REQUEST JNull Sample.world).2
    = files Sample.world
  ∧ console
      (SessionLogger_log MoreRuns.readonly_runtime Sample.logger
         MODEL_REQUEST JNull Sample.world).2
    = console Sample.world
      ++ [("Error writing to session log file:",
           new_Error "Error" "EACCES: permission denied")].
Proof.
  apply (log_failure_is_contained MoreRuns.readonly_runtime Sample.logger
           MODEL_REQUEST JNull Sample.world "/tmp/logs/s.log.jsonl"
           (new_Error "Error" "EACCES: permission denied")).
  - reflexivity.
  - reflexivity.
  - discriminate.
  - right. exists "{}". split; reflexivity.
Defined.

Lemma initialize_then_idempotent_witness :
  SessionLogger_initialize Sample.runtime MoreRuns.fresh_logger Sample.world
  = (Returned
       (mkSessionLogger (Some "/tmp/logs/s.log.jsonl") "s" true
          (mkStorage "/tmp")),
     set_files ∅ Sample.world)
  ∧ ∀ w2,
      SessionLogger_initialize Sample.runtime
        (mkSessionLogger (Some "/tmp/logs/s.log.jsonl") "s" true
           (mkStorage "/tmp")) w2
      = (Returned
           (mkSessionLogger (Some "/tmp/logs/s.log.jsonl") "s" true
              (mkStorage "/tmp")),
         w2).
Proof.
  apply (initialize_then_idempotent Sample.runtime MoreRuns.fresh_logger
           Sample.world ∅); reflexivity.
Defined.

Lemma failed_initialize_silences_logger_witness :
  ∃ lg',
    SessionLogger_initialize MoreRuns.readonly_runtime MoreRuns.fresh_logger
      Sample.world
    = (Returned lg',
       console_print "Failed to initialize session logger:"
         (new_Error "Error" "EROFS: read-only file system") Sample.world)
    ∧ initialized lg' = false
    ∧ ∀ type d w2,
        (SessionLogger_log MoreRuns.readonly_runtime lg' type d w2).1
        = Returned tt
        ∧ files (SessionLogger_log MoreRuns.readonly_runtime lg' type d w2).2
          = files w2
        ∧ console
            (SessionLogger_log MoreRuns.readonly_runtime lg' type d w2).2
          = console w2.
Proof.
  apply (failed_initialize_silences_logger MoreRuns.readonly_runtime
           MoreRuns.fresh_logger Sample.world
           (new_Error "Error" "EROFS: read-only file system"));
    reflexivity.
Defined.

Lemma replacer_marks_repeated_objects_witness :
  replace_visits ∅
    [("", VObject 1); ("a", VObject 2); ("b", VObject 2); ("n", VBigInt (-12))]
  !! 2%nat
  = Some (RString "[Circular]").
Proof.
  exact (replacer_marks_repeated_objects
           [("", VObject 1); ("a", VObject 2); ("b", VObject 2);
            ("n", VBigInt (-12))]
           2 "b" (VObject 2) eq_refl).
Defined.

(* The shared object of the run above is not part of a cycle; the BigInt
   comes out as its digits. *)
Example replacer_run :
  replace_visits ∅
    [("", VObject 1); ("a", VObject 2); ("b", VObject 2); ("n", VBigInt (-12))]
  = [RSame; RSame; RString "[Circular]"; RString "-12"].
Proof. vm_compute. reflexivity. Qed.
